(** * FASTA sequence length analysis: a shallow embedding of
      [count_long_sequences.py] and the properties of its analysis,
      binning and report stages.

    Python integers are [Z]; the true division [a / b] of two integers is
    taken in exact rational arithmetic ([Q]) and raises
    [ZeroDivisionError] on a zero divisor; strings are [string], one
    character per residue (FASTA text is ASCII); lists are [list].
    [SeqIO.parse] (Biopython) and matplotlib are libraries outside the
    program: the parser is represented by what it yields, the chart calls
    by their outcome.  A write into the report can fail ([write_on]);
    [generate_report] and [report_body] are the call and its block on a
    disk that takes every write.  [truediv] is exact: the rounding of a
    Python float is not modelled, nor the [OverflowError] of a quotient
    beyond the float range, which needs an integer of more than 64 bits. *)

From Stdlib Require Import ZArith QArith String Ascii List Lia.
From stdpp Require Import base list strings sorting pretty gmap.

Local Open Scope Z_scope.

(** ** Python values and exceptions *)

Module Py.

(** The exceptions that can surface in this program.  [ParserError] is
    whatever the FASTA parser raises while it is iterated, [OSError] an
    operating-system failure of an external call. *)
Inductive exn : Type :=
  | ValueError (msg : string)
  | ZeroDivisionError
  | ParserError (msg : string)
  | OSError (msg : string).

(** Outcome of a Python call: a value, or a raised exception. *)
Inductive res (A : Type) : Type :=
  | Ok (a : A)
  | Raise (e : exn).
Arguments Ok {A} a.
Arguments Raise {A} e.

Definition is_raise {A} (r : res A) : bool :=
  match r with Ok _ => false | Raise _ => true end.

(** [len(s)] for a string. *)
Definition len_str (s : string) : Z := Z.of_nat (String.length s).

(** [len(l)] for a list. *)
Definition len {A} (l : list A) : Z := Z.of_nat (length l).

(** [s.replace(old, new)] where [old] is a single character: every
    occurrence of [old], left to right, is replaced by [new]. *)
Fixpoint replace (s : string) (old : ascii) (new : string) : string :=
  match s with
  | EmptyString => EmptyString
  | String c s' =>
      if Ascii.eqb c old then new +:+ replace s' old new
      else String c (replace s' old new)
  end.

(** [a / b] on integers (true division): [ZeroDivisionError] on a zero
    divisor, otherwise the quotient, kept exact.  Python rounds it to a
    float and raises [OverflowError] when it lies beyond the float range;
    neither is modelled, so a statement on arbitrary integers is made for
    those of machine size. *)
Definition truediv (a b : Z) : res Q :=
  if b =? 0 then Raise ZeroDivisionError else Ok (inject_Z a / inject_Z b)%Q.

(** [sum(l)]. *)
Definition sum (l : list Z) : Z := foldl Z.add 0 l.

(** [min(l)] and [max(l)]: [ValueError] on an empty sequence. *)
Definition min (l : list Z) : res Z :=
  match l with
  | [] => Raise (ValueError "min() arg is an empty sequence")
  | x :: l' => Ok (foldl Z.min x l')
  end.

Definition max (l : list Z) : res Z :=
  match l with
  | [] => Raise (ValueError "max() arg is an empty sequence")
  | x :: l' => Ok (foldl Z.max x l')
  end.

End Py.

Import Py.

(** ** The analyzer: [count_long_sequences] *)

(** A record as the parser hands it over: [record.id] and
    [str(record.seq)]. *)
Record SeqRecord : Type := mkRecord { id : string; seq : string }.

(** The iterator [SeqIO.parse(fasta_file, "fasta")]: the records it
    yields, in order, and how the iteration ends: [None] for normal
    exhaustion, [Some e] when the parser raises [e] after them. *)
Record parse_stream : Type := mkStream {
  yielded : list SeqRecord;
  ending : option exn
}.

(** The four accumulators of the loop. *)
Record counters : Type := mkCounters {
  long_count : Z;
  total_count : Z;
  long_ids : list string;
  all_lengths : list Z
}.

Definition counters0 : counters := mkCounters 0 0 [] [].

(** [len(str(record.seq).replace("-", ""))]. *)
Definition seq_length (record : SeqRecord) : Z :=
  let cleaned_seq := replace (seq record) "-" "" in
  len_str cleaned_seq.

(** One iteration of the [for record in ...] loop. *)
Definition count_step (min_length : Z) (st : counters) (record : SeqRecord)
  : counters :=
  let total_count := total_count st + 1 in
  let seq_length := seq_length record in
  let all_lengths := all_lengths st ++ [seq_length] in
  if seq_length >? min_length
  then mkCounters (long_count st + 1) total_count
                  (long_ids st ++ [id record]) all_lengths
  else mkCounters (long_count st) total_count (long_ids st) all_lengths.

(** The whole function: the loop runs over the yielded records; an
    exception of the parser propagates, otherwise the tuple
    [(long_count, total_count, long_ids, all_lengths)] is returned. *)
Definition count_long_sequences (fasta_file : parse_stream) (min_length : Z)
  : res (Z * Z * list string * list Z) :=
  let st := foldl (count_step min_length) counters0 (yielded fasta_file) in
  match ending fasta_file with
  | Some e => Raise e
  | None => Ok (long_count st, total_count st, long_ids st, all_lengths st)
  end.

(** ** The report: [generate_report] *)

(** The parsed command line ([args.input], [args.output],
    [args.min_length], [args.plot]). *)
Record Args : Type := mkArgs {
  input : string;
  output : string;
  min_length : Z;
  plot : string
}.

(** What the program reads from its surroundings during one run. *)
Record World : Type := mkWorld {
  input_is_file : bool;        (* os.path.isfile(args.input) *)
  now : string;                (* datetime.now().strftime(...) *)
  chart_draw : option exn;     (* matplotlib calls before the chart statistics *)
  chart_save : option exn;     (* matplotlib calls after them, up to plt.close() *)
  open_output : option exn;    (* os.makedirs(...) and open(args.output, "w") *)
  disk : option (nat * exn);   (* [Some (k, e)]: the report takes [k] writes, the next raises [e] *)
  terminal : option exn        (* what printing the summary raises, if anything *)
}.

(** An entry of [bins]: an integer, or [float('inf')]. *)
Inductive bound : Type :=
  | Fin (z : Z)
  | Inf.

Global Instance bound_inhabited : Inhabited bound := populate Inf.

(** [a <= b] and [a < b] between an entry of [bins] and another one. *)
Definition bound_leb (a b : bound) : bool :=
  match a, b with
  | Fin x, Fin y => x <=? y
  | Fin _, Inf => true
  | Inf, Fin _ => false
  | Inf, Inf => true
  end.

Definition bound_ltb (a b : bound) : bool :=
  match a, b with
  | Fin x, Fin y => x <? y
  | Fin _, Inf => true
  | Inf, Fin _ => false
  | Inf, Inf => false
  end.

(** [bins = [0, 100, 300, args.min_length, 500, 1000, float('inf')]]. *)
Definition bins (args : Args) : list bound :=
  [Fin 0; Fin 100; Fin 300; Fin (min_length args); Fin 500; Fin 1000; Inf].

(** The six labels; two of them embed the threshold. *)
Definition labels (args : Args) : list string :=
  ["<100"; "100-300"; "300-" +:+ pretty (min_length args);
   pretty (min_length args) +:+ "-500"; "500-1000"; ">1000"].

(** [l[-1]] of a list of bounds. *)
Definition last_bound (l : list bound) : bound := List.last l inhabitant.

(** [bin_counts[i] += 1]. *)
Definition incr (i : nat) (bin_counts : list Z) : list Z :=
  alter (fun c => c + 1) i bin_counts.

(** The test [bins[i] <= length < bins[i+1]]. *)
Definition in_range (bins : list bound) (i : nat) (length : Z) : bool :=
  bound_leb (bins !!! i) (Fin length)
  && bound_ltb (Fin length) (bins !!! (i + 1)%nat).

(** The inner [for i in range(len(bins)-1): ... break ... else: ...] for one
    [length]; [range] is what is left of the range.  The first [i] with
    [bins[i] <= length < bins[i+1]] gets the count and ends the loop; when
    the range is exhausted the [else] branch counts the length in the last
    cell if [length >= bins[-1]]. *)
Fixpoint bin_one (bins : list bound) (length : Z) (range : list nat)
    (bin_counts : list Z) : list Z :=
  match range with
  | i :: range' =>
      if in_range bins i length
      then incr i bin_counts
      else bin_one bins length range' bin_counts
  | [] =>
      if bound_leb (last_bound bins) (Fin length)
      then incr (List.length bin_counts - 1)%nat bin_counts
      else bin_counts
  end.

(** [bin_counts = [0] * len(bins)] followed by the loop over
    [all_lengths]. *)
Definition bin_lengths (bins : list bound) (all_lengths : list Z) : list Z :=
  foldl (fun bin_counts length =>
           bin_one bins length (List.seq 0 (List.length bins - 1)) bin_counts)
        (replicate (List.length bins) 0) all_lengths.

(** [zip(labels, bin_counts)]: six labels against seven cells, so the
    seventh cell is dropped. *)
Definition distribution (args : Args) (all_lengths : list Z)
  : list (string * Z) :=
  zip (labels args) (bin_lengths (bins args) all_lengths).

(** [np.median]: the middle of the sorted list, the mean of the two middle
    values when the size is even; [None] stands for the [nan] of an empty
    input. *)
Definition median (l : list Z) : option Q :=
  let s := merge_sort Z.le l in
  let n := List.length s in
  if (n =? 0)%nat then None
  else if Nat.even n
       then Some ((inject_Z (s !!! (n / 2 - 1)%nat) + inject_Z (s !!! (n / 2)%nat)) / 2)%Q
       else Some (inject_Z (s !!! (n / 2)%nat)).

(** What one [f.write(...)] puts into the report.  Numbers are kept as
    values; their rendering to a fixed number of decimals is not part of
    the model. *)
Inductive chunk : Type :=
  | Title
  | Rule80
  | Generated (timestamp : string)
  | InputFile (path : string)
  | OutputFile (path : string)
  | Threshold (min_length : Z)
  | Dash80
  | Total (total_count : Z)
  | Long (long_count : Z)
  | LongPercent (percentage : Q)
  | Blank
  | StatsHeader
  | Dash60
  | Shortest (v : Z)
  | Longest (v : Z)
  | Mean (v : Q)
  | Median (v : option Q)
  | DistHeader
  | DistLine (label : string) (count : Z) (percent : Q)
  | IdsHeader
  | IdsFound (n : Z)
  | IdLine (i : Z) (seq_id : string)
  | IdSeparator.

(** Code that writes to the open report: it takes the text written so far
    and returns its outcome with the text written by then.  What was
    written before an exception stays written. *)
Definition Writer (A : Type) : Type := list chunk -> res A * list chunk.

Definition wret {A} (a : A) : Writer A := fun f => (Ok a, f).

Definition wbind {A B} (m : Writer A) (k : A -> Writer B) : Writer B :=
  fun f => match m f with
           | (Ok a, f') => k a f'
           | (Raise e, f') => (Raise e, f')
           end.

(** [f.write(c)]. *)
Definition write (c : chunk) : Writer unit := fun f => (Ok tt, f ++ [c]).

(** [f.write(c)] on a disk that may give out: every write succeeds when
    [disk] is [None]; with [Some (k, e)] the first [k] writes into the file
    succeed and the next one raises [e]. *)
Definition write_on (disk : option (nat * exn)) (c : chunk) : Writer unit :=
  fun f =>
    match disk with
    | Some (k, e) =>
        if (List.length f <? k)%nat then (Ok tt, f ++ [c]) else (Raise e, f)
    | None => (Ok tt, f ++ [c])
    end.

(** An expression evaluated inside the [with] block. *)
Definition eval {A} (r : res A) : Writer A := fun f => (r, f).

Notation "x <- m ;; k" := (wbind m (fun x => k))
  (at level 100, m at next level, right associativity).
Notation "m ;; k" := (wbind m (fun _ => k))
  (at level 100, right associativity).

(** A [for] loop whose body writes. *)
Fixpoint for_each {A} (l : list A) (body : A -> Writer unit) : Writer unit :=
  match l with
  | [] => wret tt
  | x :: l' => body x ;; for_each l' body
  end.

(** [enumerate(l)], counting from [i]. *)
Fixpoint enumerate_from {A} (i : Z) (l : list A) : list (Z * A) :=
  match l with
  | [] => []
  | x :: l' => (i, x) :: enumerate_from (i + 1) l'
  end.

(** [long_count / total_count * 100 if total_count > 0 else 0]. *)
Definition headline_percentage (long_count total_count : Z) : res Q :=
  if total_count >? 0
  then match truediv long_count total_count with
       | Ok q => Ok (q * 100)%Q
       | Raise e => Raise e
       end
  else Ok 0%Q.

(** [count / total_count * 100]. *)
Definition percent_of (count total_count : Z) : res Q :=
  match truediv count total_count with
  | Ok q => Ok (q * 100)%Q
  | Raise e => Raise e
  end.

(** [sum(all_lengths)/len(all_lengths)]. *)
Definition mean (all_lengths : list Z) : res Q :=
  truediv (sum all_lengths) (len all_lengths).

(** The body of the [with open(...) as f:] block, with [wr] for
    [f.write]. *)
Definition report_body_with (wr : chunk -> Writer unit) (args : Args)
    (timestamp : string) (percentage : Q)
    (long_count total_count : Z) (long_ids : list string)
    (all_lengths : list Z) : Writer unit :=
  wr Title ;;
  wr Rule80 ;;
  wr (Generated timestamp) ;;
  wr (InputFile (input args)) ;;
  wr (OutputFile (output args)) ;;
  wr (Threshold (min_length args)) ;;
  wr Dash80 ;;
  wr (Total total_count) ;;
  wr (Long long_count) ;;
  wr (LongPercent percentage) ;;
  wr Blank ;;
  wr StatsHeader ;;
  wr Dash60 ;;
  lo <- eval (min all_lengths) ;; wr (Shortest lo) ;;
  hi <- eval (max all_lengths) ;; wr (Longest hi) ;;
  avg <- eval (mean all_lengths) ;; wr (Mean avg) ;;
  wr (Median (median all_lengths)) ;;
  wr DistHeader ;;
  wr Dash60 ;;
  for_each (distribution args all_lengths) (fun '(label, count) =>
    percent <- eval (percent_of count total_count) ;;
    wr (DistLine label count percent)) ;;
  wr IdsHeader ;;
  wr Dash60 ;;
  wr (IdsFound (len long_ids)) ;;
  for_each (enumerate_from 0 long_ids) (fun '(i, seq_id) =>
    wr (IdLine (i + 1) seq_id) ;;
    if (i + 1) mod 50 =? 0 then wr IdSeparator else wret tt).

(** The block when every write succeeds. *)
Definition report_body (args : Args) (timestamp : string) (percentage : Q)
    (long_count total_count : Z) (long_ids : list string)
    (all_lengths : list Z) : Writer unit :=
  report_body_with write args timestamp percentage long_count total_count
                   long_ids all_lengths.

(** [generate_report], with [wr] for [f.write]: its outcome (the message
    it returns, or the exception it raises) and the report file it leaves:
    [None] when the file was never opened, otherwise what was written to
    it. *)
Definition generate_report_with (wr : chunk -> Writer unit) (w : World)
    (args : Args) (long_count total_count : Z) (long_ids : list string)
    (all_lengths : list Z) : res string * option (list chunk) :=
  let timestamp := now w in
  match headline_percentage long_count total_count with
  | Raise e => (Raise e, None)
  | Ok percentage =>
      match open_output w with
      | Some e => (Raise e, None)
      | None =>
          match report_body_with wr args timestamp percentage long_count
                                 total_count long_ids all_lengths [] with
          | (Ok _, f) => (Ok ("报告已保存至: " +:+ output args), Some f)
          | (Raise e, f) => (Raise e, Some f)
          end
      end
  end.

(** [generate_report] when every write succeeds. *)
Definition generate_report (w : World) (args : Args)
    (long_count total_count : Z) (long_ids : list string)
    (all_lengths : list Z) : res string * option (list chunk) :=
  generate_report_with write w args long_count total_count long_ids
                       all_lengths.

(** ** The chart step and [main] *)

(** [plot_length_distribution], as far as it matters to the rest of the
    run: whether it returns.  Between the matplotlib calls it evaluates
    [min(all_lengths)] and [max(all_lengths)] for the annotations. *)
Definition plot_length_distribution (w : World) (all_lengths : list Z)
    (min_length : Z) : res unit :=
  match chart_draw w with
  | Some e => Raise e
  | None =>
      match min all_lengths with
      | Raise e => Raise e
      | Ok _ =>
          match max all_lengths with
          | Raise e => Raise e
          | Ok _ =>
              match chart_save w with
              | Some e => Raise e
              | None => Ok tt
              end
          end
      end
  end.

(** The values computed for the terminal summary at the end of [main];
    the first one is divided without a guard. *)
Definition terminal_summary (long_count total_count : Z)
    (all_lengths : list Z) : res unit :=
  match percent_of long_count total_count with
  | Raise e => Raise e
  | Ok _ =>
      match min all_lengths with
      | Raise e => Raise e
      | Ok _ =>
          match max all_lengths with
          | Raise e => Raise e
          | Ok _ =>
              match mean all_lengths with
              | Raise e => Raise e
              | Ok _ => Ok tt
              end
          end
      end
  end.

(** How a run of the program ends. *)
Inductive ending_of_run : Type :=
  | Finished
  | SysExit (code : Z)
  | Uncaught (e : exn).

(** [main], after argument parsing: the way the run ends and the report
    file it leaves ([None]: the output destination was not touched).  The
    report is written on the disk of the run, [disk w].  After it the
    summary is printed: the first [print] that the terminal refuses raises
    [terminal w] (the very first one carries non-ASCII text), and the values
    shown are those of [terminal_summary].  The font selection, which feeds
    only the chart, is left out. *)
Definition main (w : World) (args : Args) (fasta_file : parse_stream)
  : ending_of_run * option (list chunk) :=
  if negb (input_is_file w) then (SysExit 1, None)
  else
    match count_long_sequences fasta_file (min_length args) with
    | Raise e => (Uncaught e, None)
    | Ok (long_count, total_count, long_ids, all_lengths) =>
        match plot_length_distribution w all_lengths (min_length args) with
        | Raise e => (Uncaught e, None)
        | Ok _ =>
            match generate_report_with (write_on (disk w)) w args long_count
                                       total_count long_ids all_lengths with
            | (Raise e, f) => (Uncaught e, f)
            | (Ok _, f) =>
                match terminal w with
                | Some e => (Uncaught e, f)
                | None =>
                    match terminal_summary long_count total_count
                                           all_lengths with
                    | Raise e => (Uncaught e, f)
                    | Ok _ => (Finished, f)
                    end
                end
            end
        end
    end.

(** ** Font selection: [set_chinese_font] *)

(** A [FontProperties] object: made from a font file, or the default one. *)
Inductive FontProperties : Type :=
  | FontFile (fname : string)
  | FontDefault.

(** The dictionary [system_fonts]. *)
Definition system_fonts : gmap string string :=
  <["Windows" := "C:/Windows/Fonts/msyh.ttc"]>
  (<["Linux" := "/usr/share/fonts/truetype/msttcorefonts/msyh.ttf"]>
   (<["Darwin" := "/System/Library/Fonts/PingFang.ttc"]> ∅)).

(** [system_fonts.get(sys.platform, '')]. *)
Definition system_font_candidate (platform : string) : string :=
  default "" (system_fonts !! platform).

(** [set_chinese_font(font_path)].  [isfile] is [os.path.isfile],
    [platform] is [sys.platform] and [sans_serif] the current value of
    [rcParams['font.sans-serif']]; the result is the returned font with the
    value of that setting afterwards.  [font_path] is [None] or a string,
    and the empty string counts as false in [font_path and ...]. *)
Definition set_chinese_font (isfile : string -> bool) (platform : string)
    (sans_serif : list string) (font_path : option string)
  : FontProperties * list string :=
  let user_font :=
    match font_path with
    | Some p => if negb (String.eqb p "") && isfile p then Some p else None
    | None => None
    end in
  match user_font with
  | Some p => (FontFile p, sans_serif)
  | None =>
      let candidate := system_font_candidate platform in
      if isfile candidate then (FontFile candidate, sans_serif)
      else (FontDefault, ["DejaVu Sans"])
  end.

(** ** Notions used to state the properties *)


(** The characters of a string, and the test "is not the gap character". *)
Definition chars (s : string) : list ascii := list_ascii_of_string s.

Definition not_gap (c : ascii) : bool := negb (Ascii.eqb c "-").

(** Number of gap characters of a body. *)
Definition gaps (s : string) : nat := count_occ ascii_dec (chars s) "-"%char.

(** A record is long for a threshold when its length is strictly above. *)
Definition is_long (min_length : Z) (record : SeqRecord) : Prop :=
  min_length < seq_length record.

Global Instance is_long_dec t r : Decision (is_long t r).
Proof. unfold is_long. apply _. Defined.

(** The bucket of a non-negative length, read off the six ranges
    [[0,100)], [[100,300)], [[300,t)], [[t,500)], [[500,1000)],
    [[1000,+oo)] taken in this order. *)
Definition bucket_of (t length : Z) : nat :=
  if length <? 100 then 0%nat
  else if length <? 300 then 1%nat
  else if length <? t then 2%nat
  else if length <? 500 then 3%nat
  else if length <? 1000 then 4%nat
  else 5%nat.

(** The six counts of the distribution block. *)
Definition bucket_counts (args : Args) (all_lengths : list Z) : list Z :=
  (distribution args all_lengths).*2.

(** The percentages printed in the distribution block of a report. *)
Definition dist_percents (f : list chunk) : list Q :=
  flat_map (fun c => match c with DistLine _ _ p => [p] | _ => [] end) f.

Definition Qsum (l : list Q) : Q := foldr Qplus 0%Q l.

(** The lines of the distribution block for a list of labelled counts. *)
Definition dist_lines (total_count : Z) (d : list (string * Z)) : list chunk :=
  List.map (fun '(label, count) =>
              DistLine label count (inject_Z count / inject_Z total_count * 100)%Q)
           d.

(** The identifier listing, numbered from [i + 1], with a separator after
    every entry whose number is a multiple of 50. *)
Definition id_lines (i : Z) (ids : list string) : list chunk :=
  flat_map (fun '(i, seq_id) =>
              IdLine (i + 1) seq_id
              :: (if (i + 1) mod 50 =? 0 then [IdSeparator] else []))
           (enumerate_from i ids).

(** The report up to the global statistics block. *)
Definition report_head (args : Args) (timestamp : string) (percentage : Q)
    (long_count total_count : Z) : list chunk :=
  [Title; Rule80; Generated timestamp; InputFile (input args);
   OutputFile (output args); Threshold (min_length args); Dash80;
   Total total_count; Long long_count; LongPercent percentage; Blank;
   StatsHeader; Dash60].

(** The whole report. *)
Definition complete_report (args : Args) (timestamp : string) (percentage : Q)
    (long_count total_count : Z) (long_ids : list string)
    (all_lengths : list Z) (lo hi : Z) (avg : Q) : list chunk :=
  report_head args timestamp percentage long_count total_count
  ++ [Shortest lo; Longest hi; Mean avg; Median (median all_lengths);
      DistHeader; Dash60]
  ++ dist_lines total_count (distribution args all_lengths)
  ++ [IdsHeader; Dash60; IdsFound (len long_ids)]
  ++ id_lines 0 long_ids.

(** Sample inputs on which the statements below are exercised. *)
Definition sample_args : Args := mkArgs "in.fasta" "report.txt" 428 "plot.png".

Definition args_300 : Args := mkArgs "in.fasta" "report.txt" 300 "plot.png".

Definition quiet_world : World :=
  mkWorld true "2024-01-01 00:00:00" None None None None None.

Definition seq1 : SeqRecord := mkRecord "seq1" "MK--VLA-".

Definition sample_records : list SeqRecord :=
  [mkRecord "a" "AC--GT"; mkRecord "b" "ACGT--AA"; mkRecord "c" "--";
   mkRecord "d" "ACGTAC"].

Definition sample_fasta : parse_stream := mkStream sample_records None.

Definition empty_fasta : parse_stream := mkStream [] None.

(** The cell that the inner loop of the binner increments for a length of
    any sign: a negative length can only match [[t, 500)]. *)
Definition slot_of (t length : Z) : option nat :=
  if length <? 0
  then (if t <=? length then Some 3%nat else None)
  else Some (bucket_of t length).

(** Number of elements of a list of integers that satisfy a test. *)
Definition how_many (P : Z -> bool) (l : list Z) : Z :=
  len (List.filter P l).

(** The statistics and the heading of the distribution block. *)
Definition report_stats (all_lengths : list Z) (lo hi : Z) (avg : Q)
  : list chunk :=
  [Shortest lo; Longest hi; Mean avg; Median (median all_lengths);
   DistHeader; Dash60].

(** The numbered identifiers of a report, and its number of separators. *)
Definition id_entries (f : list chunk) : list (Z * string) :=
  flat_map (fun c => match c with IdLine i x => [(i, x)] | _ => [] end) f.

Definition separators (f : list chunk) : nat :=
  List.length (List.filter (fun c => match c with IdSeparator => true
                                             | _ => false end) f).

(** The counts printed in the distribution block of a report. *)
Definition dist_counts (f : list chunk) : list Z :=
  flat_map (fun c => match c with DistLine _ n _ => [n] | _ => [] end) f.

(** The lengths that end up in cell [i] of the distribution, for a
    threshold [t]: the range of the cell, less what an earlier range has
    already taken. *)
Definition bucket_test (t : Z) (i : nat) (l : Z) : bool :=
  match i with
  | 0%nat => (0 <=? l) && (l <? 100)
  | 1%nat => (100 <=? l) && (l <? 300)
  | 2%nat => (300 <=? l) && (l <? t)
  | 3%nat => (t <=? l) && (l <? 500) && ((l <? 0) || (300 <=? l))
  | 4%nat => (500 <=? l) && (l <? 1000) && (t <=? l)
  | 5%nat => (1000 <=? l) && (t <=? l)
  | _ => false
  end.

(** An integer of machine size (64 bits, signed). *)
Definition machine_int (n : Z) : Prop := - 2 ^ 63 <= n < 2 ^ 63.

(** What is left of a block of writes when the disk takes [k] writes and
    raises [e] at the next one. *)
Definition cut_at {A} (k : nat) (e : exn) (o : res A * list chunk)
  : res A * list chunk :=
  if (k <? List.length o.2)%nat then (Raise e, take k o.2) else o.

(** A block only appends to the file. *)
Definition appends {A} (m : Writer A) : Prop :=
  forall f, exists r extra, m f = (r, f ++ extra).

(** [m'] is the block [m] run on the disk that gives out after [k]
    writes. *)
Definition fails_after {A} (k : nat) (e : exn) (m m' : Writer A) : Prop :=
  appends m /\
  forall f, (List.length f <= k)%nat -> m' f = cut_at k e (m f).

(** Number of writes of a whole report that lists [n] identifiers. *)
Definition report_writes (n : nat) : nat := 28 + n + n / 50.


Definition ascii_terminal_world : World :=
  mkWorld true "2024-01-01 00:00:00" None None None None
          (Some (ValueError "'ascii' codec can't encode characters")).

(** More sample inputs: a file system that holds the bundled font only,
    and one that holds no file. *)
Definition simhei_present (path : string) : bool :=
  String.eqb path "./font/SimHei.ttf".

Definition no_file (path : string) : bool := false.

Definition failing_fasta : parse_stream :=
  mkStream sample_records (Some (ParserError "bad record")).

(** Case analysis on every integer comparison of the goal. *)
Ltac cases_Z :=
  repeat match goal with
    | |- context [Z.leb ?a ?b] => destruct (Z.leb_spec a b)
    | |- context [Z.ltb ?a ?b] => destruct (Z.ltb_spec a b)
    end.

(** The same, with the equality tests. *)
Ltac cases_eqb :=
  repeat match goal with
    | |- context [Z.eqb ?x ?y] => destruct (Z.eqb_spec x y)
    end.

Ltac cases_bool := cases_Z; cases_eqb.

(** * Properties of the analyzer *)

Section Analyzer.

Implicit Types (s : string) (r record : SeqRecord) (rs : list SeqRecord)
  (t : Z) (st : counters).

Lemma chars_replace_gap s :
  chars (replace s "-" "") = List.filter not_gap (chars s).
Proof.
  induction s as [|c s IH]; [reflexivity|].
  unfold chars in *. cbn [replace list_ascii_of_string List.filter].
  unfold not_gap at 1. destruct (Ascii.eqb c "-"); cbn; [|f_equal]; exact IH.
Qed.

Lemma length_chars s : List.length (chars s) = String.length s.
Proof. induction s as [|c s IH]; cbn; [reflexivity | now rewrite <- IH]. Qed.

Lemma seq_length_filter r :
  seq_length r = Z.of_nat (List.length (List.filter not_gap (chars (seq r)))).
Proof.
  unfold seq_length, len_str.
  now rewrite <- length_chars, chars_replace_gap.
Qed.

Lemma filter_not_gap_count (l : list ascii) :
  (List.length (List.filter not_gap l) + count_occ ascii_dec l "-"%char
   = List.length l)%nat.
Proof.
  induction l as [|c l IH]; [reflexivity|].
  cbn [List.filter count_occ List.length]. unfold not_gap at 1.
  destruct (ascii_dec c "-") as [->|Hne].
  - cbn. lia.
  - apply Ascii.eqb_neq in Hne. rewrite Hne. cbn. lia.
Qed.

Lemma chars_app s1 s2 : chars (s1 +:+ s2) = chars s1 ++ chars s2.
Proof.
  induction s1 as [|c s1 IH]; [reflexivity|].
  unfold chars in *.
  change (c :: list_ascii_of_string (s1 +:+ s2)
          = c :: (list_ascii_of_string s1 ++ list_ascii_of_string s2)).
  now rewrite IH.
Qed.

Lemma seq_length_nonneg r : 0 <= seq_length r.
Proof. unfold seq_length, len_str. lia. Qed.

(** The loop, whatever the accumulators it starts from. *)
Lemma count_loop t rs st :
  foldl (count_step t) st rs =
  mkCounters (long_count st + len (filter (is_long t) rs))
             (total_count st + len rs)
             (long_ids st ++ (id <$> filter (is_long t) rs))
             (all_lengths st ++ (seq_length <$> rs)).
Proof.
  revert st. induction rs as [|r rs IH]; intros st.
  - destruct st. cbn. unfold len. cbn. f_equal; try lia; now rewrite app_nil_r.
  - cbn [foldl]. rewrite IH. unfold count_step.
    rewrite filter_cons. unfold len.
    destruct (Z.gtb_spec (seq_length r) t) as [Hgt|Hle].
    + rewrite decide_True by (unfold is_long; lia).
      cbn. f_equal; try lia; now rewrite <- app_assoc.
    + rewrite decide_False by (unfold is_long; lia).
      cbn. f_equal; try lia; now rewrite <- app_assoc.
Qed.

Lemma count_long_sequences_ok fasta t lc tc ids lens :
  count_long_sequences fasta t = Ok (lc, tc, ids, lens) ->
  ending fasta = None /\
  lc = len (filter (is_long t) (yielded fasta)) /\
  tc = len (yielded fasta) /\
  ids = (id <$> filter (is_long t) (yielded fasta)) /\
  lens = (seq_length <$> yielded fasta).
Proof.
  unfold count_long_sequences. rewrite count_loop.
  destruct (ending fasta); [discriminate|].
  cbn. intros [= <- <- <- <-]. repeat split; lia.
Qed.

Lemma filter_long_mono t1 t2 rs :
  t1 <= t2 -> filter (is_long t2) rs `sublist_of` filter (is_long t1) rs.
Proof.
  intros Hle. induction rs as [|r rs IH]; [constructor|].
  rewrite !filter_cons.
  destruct (decide (is_long t2 r)) as [H2|H2].
  - rewrite decide_True by (unfold is_long in *; lia). now constructor.
  - destruct (decide (is_long t1 r)); [now constructor | exact IH].
Qed.

End Analyzer.

(** ** Length normalisation *)

(** C3 (as the claim states it, refuted): the record [seq1] with body
    ["MK--VLA-"] does not get length 6; the body has eight characters,
    three of them gaps, and the analyzer records length 5. *)
Lemma seq1_length_is_not_6 :
  seq_length seq1 <> 6 /\
  count_long_sequences (mkStream [seq1] None) 0 = Ok (1, 1, ["seq1"], [5]).
Proof. split; [discriminate | reflexivity]. Qed.

(** C3 (amended): for the record with identifier ["seq1"] and body
    ["MK--VLA-"] the analyzer records the identifier ["seq1"] and the
    length 5, under every threshold: it is listed as long exactly when the
    threshold is below 5. *)
Theorem seq1_record_length (t : Z) :
  id seq1 = "seq1" /\ seq_length seq1 = 5 /\
  count_long_sequences (mkStream [seq1] None) t =
    Ok (if 5 >? t then (1, 1, ["seq1"], [5]) else (0, 1, [], [5])).
Proof.
  repeat split.
  unfold count_long_sequences. cbn [yielded ending foldl].
  unfold count_step. change (seq_length seq1) with 5.
  destruct (5 >? t); reflexivity.
Qed.

(** C4: the length recorded for a record is the number of characters of
    its body that are not the gap character, that is the size of the body
    minus its number of gaps; where the gaps stand does not matter: a gap
    put anywhere into a body leaves the length unchanged, and ["AC--GT"]
    and ["ACGT--"] both have length 4. *)
Theorem normalized_length_ignores_gaps (ident : string) (body : string) :
  seq_length (mkRecord ident body)
    = Z.of_nat (List.length (List.filter not_gap (chars body))) /\
  seq_length (mkRecord ident body) = len_str body - Z.of_nat (gaps body) /\
  (forall s1 s2 : string,
      seq_length (mkRecord ident (s1 +:+ "-" +:+ s2))
      = seq_length (mkRecord ident (s1 +:+ s2))) /\
  seq_length (mkRecord ident "AC--GT") = 4 /\
  seq_length (mkRecord ident "ACGT--") = 4.
Proof.
  split; [apply seq_length_filter|].
  split.
  { rewrite seq_length_filter. unfold len_str, gaps. cbn [seq].
    rewrite <- length_chars.
    pose proof (filter_not_gap_count (chars body)). lia. }
  split; [|split; reflexivity].
  intros s1 s2. rewrite !seq_length_filter. cbn [seq].
  rewrite !chars_app, !List.filter_app. reflexivity.
Qed.

(** ** Thresholding *)

(** C5: [long_count] is the length of [long_ids]; both are the number of
    records whose length is strictly above the threshold, and [long_ids]
    is the list of the identifiers of those records in parse order. *)
Theorem long_count_and_ids (fasta : parse_stream) (t lc tc : Z)
    (ids : list string) (lens : list Z) :
  count_long_sequences fasta t = Ok (lc, tc, ids, lens) ->
  lc = len ids /\
  lc = len (filter (fun r => t < seq_length r) (yielded fasta)) /\
  ids = (id <$> filter (fun r => t < seq_length r) (yielded fasta)) /\
  (forall r, seq_length r = t ->
             count_long_sequences (mkStream [r] None) t = Ok (0, 1, [], [t])).
Proof.
  intros H. apply count_long_sequences_ok in H as (_ & Hlc & _ & Hids & _).
  repeat split.
  - subst. unfold len. now rewrite length_fmap.
  - exact Hlc.
  - exact Hids.
  - intros r Hr. unfold count_long_sequences. cbn [yielded ending foldl].
    unfold count_step. rewrite Hr.
    destruct (Z.gtb_spec t t); [lia | reflexivity].
Qed.

Lemma long_count_and_ids_witness :
  count_long_sequences sample_fasta 4 = Ok (2, 4, ["b"; "d"], [4; 6; 0; 6]) /\
  2 = len ["b"; "d"] /\
  ["b"; "d"] = (id <$> filter (fun r => 4 < seq_length r) sample_records).
Proof.
  split; [reflexivity|].
  destruct (long_count_and_ids sample_fasta 4 2 4 ["b"; "d"] [4; 6; 0; 6]
              eq_refl) as (H1 & _ & H3 & _).
  split; [exact H1 | exact H3].
Defined.

(** C9: raising the threshold can only remove long records: for
    [t1 <= t2] the count for [t2] is at most the count for [t1], and the
    identifiers listed for [t2] are a subsequence of those listed for
    [t1]. *)
Theorem long_count_antitone (fasta : parse_stream) (t1 t2 lc1 tc1 lc2 tc2 : Z)
    (ids1 ids2 : list string) (lens1 lens2 : list Z) :
  t1 <= t2 ->
  count_long_sequences fasta t1 = Ok (lc1, tc1, ids1, lens1) ->
  count_long_sequences fasta t2 = Ok (lc2, tc2, ids2, lens2) ->
  lc2 <= lc1 /\ ids2 `sublist_of` ids1.
Proof.
  intros Hle H1 H2.
  apply count_long_sequences_ok in H1 as (_ & -> & _ & -> & _).
  apply count_long_sequences_ok in H2 as (_ & -> & _ & -> & _).
  pose proof (filter_long_mono t1 t2 (yielded fasta) Hle) as Hsub.
  split.
  - unfold len. apply sublist_length in Hsub. lia.
  - now apply fmap_sublist.
Qed.

Lemma long_count_antitone_witness :
  2 <= 3 /\ ["b"; "d"] `sublist_of` ["a"; "b"; "d"].
Proof.
  refine (long_count_antitone sample_fasta 3 4 3 4 2 4
            ["a"; "b"; "d"] ["b"; "d"] [4; 6; 0; 6] [4; 6; 0; 6] _ _ _).
  - lia.
  - reflexivity.
  - reflexivity.
Defined.

(** C10: the analyzer's outputs satisfy [0 <= long_count <= total_count],
    [len(all_lengths) = total_count], and no recorded length is
    negative. *)
Theorem analyzer_output_bounds (fasta : parse_stream) (t lc tc : Z)
    (ids : list string) (lens : list Z) :
  count_long_sequences fasta t = Ok (lc, tc, ids, lens) ->
  0 <= lc <= tc /\ len lens = tc /\ Forall (fun n => 0 <= n) lens.
Proof.
  intros H. apply count_long_sequences_ok in H as (_ & -> & -> & _ & ->).
  repeat split.
  - unfold len. lia.
  - unfold len. pose proof (length_filter (is_long t) (yielded fasta)). lia.
  - unfold len. now rewrite length_fmap.
  - apply Forall_fmap, Forall_forall. intros r _. apply seq_length_nonneg.
Qed.

Lemma analyzer_output_bounds_witness :
  0 <= 2 <= 4 /\ len [4; 6; 0; 6] = 4 /\ Forall (fun n => 0 <= n) [4; 6; 0; 6].
Proof.
  apply (analyzer_output_bounds sample_fasta 4 2 4 ["b"; "d"] [4; 6; 0; 6]).
  reflexivity.
Defined.

(** * Properties of the binner *)

Section Binner.

Implicit Types (args : Args) (bc : list Z) (lens : list Z).

Lemma length_incr i bc : List.length (incr i bc) = List.length bc.
Proof. unfold incr. apply length_alter. Qed.

Lemma bin_one_length bs l range bc :
  List.length (bin_one bs l range bc) = List.length bc.
Proof.
  induction range as [|i range IH]; cbn [bin_one].
  - destruct (bound_leb _ _); [apply length_incr | reflexivity].
  - destruct (in_range bs i l); [apply length_incr | exact IH].
Qed.

Lemma bin_lengths_from_length bs lens bc :
  List.length
    (foldl (fun bin_counts length =>
              bin_one bs length (List.seq 0 (List.length bs - 1)) bin_counts)
           bc lens) = List.length bc.
Proof.
  revert bc. induction lens as [|l lens IH]; intros bc; [reflexivity|].
  cbn [foldl]. rewrite IH. apply bin_one_length.
Qed.

(** The six range tests, spelled out. *)
Lemma in_range_bins args l :
  in_range (bins args) 0 l = (0 <=? l) && (l <? 100) /\
  in_range (bins args) 1 l = (100 <=? l) && (l <? 300) /\
  in_range (bins args) 2 l = (300 <=? l) && (l <? min_length args) /\
  in_range (bins args) 3 l = (min_length args <=? l) && (l <? 500) /\
  in_range (bins args) 4 l = (500 <=? l) && (l <? 1000) /\
  in_range (bins args) 5 l = (1000 <=? l) && true.
Proof. repeat split. Qed.

(** On a non-negative length, [bucket_of] is the first range that matches. *)
Lemma bucket_of_first_match args l :
  0 <= l ->
  (bucket_of (min_length args) l < 6)%nat /\
  in_range (bins args) (bucket_of (min_length args) l) l = true /\
  (forall j, (j < bucket_of (min_length args) l)%nat ->
             in_range (bins args) j l = false).
Proof.
  intros Hl.
  destruct (in_range_bins args l) as (E0 & E1 & E2 & E3 & E4 & E5).
  unfold bucket_of. cases_Z; (split; [lia|]); split;
    try (rewrite ?E0, ?E1, ?E2, ?E3, ?E4, ?E5; cases_Z;
         (reflexivity || lia));
    intros j Hj;
    do 6 (destruct j as [|j];
          [rewrite ?E0, ?E1, ?E2, ?E3, ?E4, ?E5; cases_Z;
           (reflexivity || lia) |]); lia.
Qed.

(** The inner loop stops at the first matching range. *)
Lemma bin_one_first bs l range bc i pre post :
  range = pre ++ i :: post ->
  in_range bs i l = true ->
  (forall j, j ∈ pre -> in_range bs j l = false) ->
  bin_one bs l range bc = incr i bc.
Proof.
  intros -> Hi Hpre. induction pre as [|j pre IH]; cbn [bin_one app].
  - now rewrite Hi.
  - rewrite (Hpre j) by constructor. apply IH.
    intros k Hk. apply Hpre. now constructor.
Qed.

Lemma bin_one_bucket args l bc :
  0 <= l ->
  bin_one (bins args) l (List.seq 0 6) bc = incr (bucket_of (min_length args) l) bc.
Proof.
  intros Hl.
  destruct (bucket_of_first_match args l Hl) as (Hlt & Hin & Hfirst).
  apply (bin_one_first _ _ _ _ _
           (List.seq 0 (bucket_of (min_length args) l))
           (List.seq (S (bucket_of (min_length args) l))
                     (5 - bucket_of (min_length args) l))); [|exact Hin|].
  - replace 6%nat
      with (bucket_of (min_length args) l
            + S (5 - bucket_of (min_length args) l))%nat by lia.
    rewrite List.seq_app. reflexivity.
  - intros j Hj. apply Hfirst. apply list_elem_of_In, List.in_seq in Hj. lia.
Qed.

(** A range whose upper bound is not above its lower bound matches nothing. *)
Lemma inverted_no_match bs i lo hi l :
  bs !! i = Some lo -> bs !! S i = Some hi -> bound_leb hi lo = true ->
  in_range bs i l = false.
Proof.
  intros Hlo Hhi Hinv. unfold in_range.
  rewrite (list_lookup_total_correct _ _ _ Hlo).
  replace (i + 1)%nat with (S i) by lia.
  rewrite (list_lookup_total_correct _ _ _ Hhi).
  destruct lo, hi; cbn in *; try discriminate; try reflexivity;
    cases_Z; (reflexivity || lia || discriminate).
Qed.

(** A cell whose range never matches keeps its count through the inner
    loop, as long as it is not the last cell. *)
Lemma bin_one_skip bs l range bc i :
  in_range bs i l = false -> (S i < List.length bc)%nat ->
  bin_one bs l range bc !! i = bc !! i.
Proof.
  intros Hno Hlt. induction range as [|j range IH]; cbn [bin_one].
  - destruct (bound_leb _ _); [|reflexivity].
    unfold incr. apply list_lookup_alter_ne. lia.
  - destruct (in_range bs j l) eqn:Hj; [|exact IH].
    unfold incr. apply list_lookup_alter_ne. intros ->. congruence.
Qed.

Lemma bin_lengths_skip bs lens bc i :
  (forall l, in_range bs i l = false) -> (S i < List.length bc)%nat ->
  foldl (fun bin_counts length =>
           bin_one bs length (List.seq 0 (List.length bs - 1)) bin_counts)
        bc lens !! i = bc !! i.
Proof.
  intros Hno. revert bc. induction lens as [|l lens IH]; intros bc Hlt;
    [reflexivity|].
  cbn [foldl]. rewrite IH by now rewrite bin_one_length.
  now apply bin_one_skip.
Qed.

Lemma bucket_counts_take args lens :
  bucket_counts args lens = take 6 (bin_lengths (bins args) lens).
Proof.
  unfold bucket_counts, distribution.
  pose proof (bin_lengths_from_length (bins args) lens
                (replicate (List.length (bins args)) 0)) as Hlen.
  fold (bin_lengths (bins args) lens) in Hlen.
  rewrite length_replicate in Hlen. cbn in Hlen.
  destruct (bin_lengths (bins args) lens)
    as [|c0 [|c1 [|c2 [|c3 [|c4 [|c5 [|c6 [|]]]]]]]]; try discriminate.
  reflexivity.
Qed.

Lemma sum_take_incr i bc :
  List.length bc = 7%nat -> (i < 6)%nat ->
  Py.sum (take 6 (incr i bc)) = Py.sum (take 6 bc) + 1.
Proof.
  intros Hlen Hi.
  destruct bc as [|c0 [|c1 [|c2 [|c3 [|c4 [|c5 [|c6 [|]]]]]]]];
    try discriminate.
  do 6 (destruct i as [|i]; [unfold Py.sum; cbn; lia|]). lia.
Qed.

Lemma bin_lengths_sum args lens bc :
  Forall (fun n => 0 <= n) lens -> List.length bc = 7%nat ->
  Py.sum (take 6 (foldl (fun bin_counts length =>
                           bin_one (bins args) length
                             (List.seq 0 (List.length (bins args) - 1))
                             bin_counts) bc lens))
  = Py.sum (take 6 bc) + len lens.
Proof.
  intros Hpos. revert bc.
  induction Hpos as [|l lens Hl _ IH]; intros bc Hlen.
  - unfold len. cbn [foldl List.length]. lia.
  - cbn [foldl]. rewrite IH by now rewrite bin_one_length.
    change (List.length (bins args) - 1)%nat with 6%nat.
    rewrite bin_one_bucket by exact Hl.
    rewrite sum_take_incr; [unfold len; cbn [List.length]; lia | exact Hlen |].
    apply bucket_of_first_match, Hl.
Qed.

Lemma bucket_counts_sum args lens :
  Forall (fun n => 0 <= n) lens -> Py.sum (bucket_counts args lens) = len lens.
Proof.
  intros Hpos. rewrite bucket_counts_take. unfold bin_lengths.
  rewrite bin_lengths_sum by (exact Hpos || reflexivity). reflexivity.
Qed.

Lemma bucket_counts_length args lens :
  List.length (bucket_counts args lens) = 6%nat.
Proof.
  rewrite bucket_counts_take, length_take.
  unfold bin_lengths. rewrite bin_lengths_from_length, length_replicate.
  reflexivity.
Qed.

End Binner.

(** C1: the six bucket counts of the distribution block add up to
    [total_count], whatever the threshold used for the ranges (50 and 600
    included): every recorded length is counted once, in the first of the
    six ranges [[0,100)], [[100,300)], [[300,threshold)],
    [[threshold,500)], [[500,1000)], [[1000,+oo)] that contains it. *)
Theorem bucket_counts_sum_to_total (fasta : parse_stream) (t lc tc : Z)
    (ids : list string) (lens : list Z) (args : Args) :
  count_long_sequences fasta t = Ok (lc, tc, ids, lens) ->
  List.length (bucket_counts args lens) = 6%nat /\
  Py.sum (bucket_counts args lens) = tc /\
  (forall l, l ∈ lens ->
     exists i, (i < 6)%nat /\
       in_range (bins args) i l = true /\
       (forall j, (j < i)%nat -> in_range (bins args) j l = false) /\
       forall bc, bin_one (bins args) l (List.seq 0 6) bc = incr i bc).
Proof.
  intros H.
  assert (Hpos : Forall (fun n => 0 <= n) lens /\ len lens = tc).
  { apply count_long_sequences_ok in H as (_ & _ & -> & _ & ->). split.
    - apply Forall_fmap, Forall_forall. intros r _. apply seq_length_nonneg.
    - unfold len. now rewrite length_fmap. }
  destruct Hpos as [Hpos Hlen].
  split; [apply bucket_counts_length|].
  split; [now rewrite bucket_counts_sum|].
  intros l Hl. rewrite Forall_forall in Hpos. specialize (Hpos l Hl).
  exists (bucket_of (min_length args) l).
  destruct (bucket_of_first_match args l Hpos) as (H1 & H2 & H3).
  repeat split; try assumption.
  intros bc. now apply bin_one_bucket.
Qed.

Lemma bucket_counts_sum_to_total_witness :
  count_long_sequences sample_fasta 4 = Ok (2, 4, ["b"; "d"], [4; 6; 0; 6]) /\
  Py.sum (bucket_counts sample_args [4; 6; 0; 6]) = 4.
Proof.
  split; [reflexivity|].
  apply (bucket_counts_sum_to_total sample_fasta 4 2 4 ["b"; "d"]
           [4; 6; 0; 6] sample_args eq_refl).
Defined.

(** Lengths 50, 430 and 1200 under the default threshold 428. *)
Example bucket_counts_default_threshold :
  distribution sample_args [50; 430; 1200]
  = [("<100", 1); ("100-300", 0); ("300-428", 0); ("428-500", 1);
     ("500-1000", 0); (">1000", 1)].
Proof. reflexivity. Qed.

(** The degenerate thresholds 50 and 600 on lengths around every bound. *)
Example bucket_counts_threshold_50 :
  bucket_counts (mkArgs "" "" 50 "") [0; 49; 50; 99; 100; 299; 300; 499; 500; 1000]
  = [4; 2; 0; 2; 1; 1].
Proof. reflexivity. Qed.

Example bucket_counts_threshold_600 :
  bucket_counts (mkArgs "" "" 600 "") [0; 99; 100; 300; 499; 500; 599; 600; 999; 1000]
  = [2; 1; 4; 0; 2; 1].
Proof. reflexivity. Qed.

(** C6: a range whose lower bound is not below its upper bound (the third
    one when the threshold is at most 300, the fourth one when it is at
    least 500) matches no length, and its count in the distribution is 0;
    the binner returns its counts all the same.  With threshold 300 this is
    the range [[300, 300)]. *)
Theorem inverted_range_is_empty (args : Args) (lens : list Z) (i : nat)
    (lo hi : bound) :
  bins args !! i = Some lo ->
  bins args !! S i = Some hi ->
  bound_leb hi lo = true ->
  (forall l, in_range (bins args) i l = false) /\
  bucket_counts args lens !! i = Some 0.
Proof.
  intros Hlo Hhi Hinv.
  assert (Hno : forall l, in_range (bins args) i l = false)
    by (intros l; now apply (inverted_no_match _ _ lo hi)).
  split; [exact Hno|].
  apply lookup_lt_Some in Hhi. change (S i < 7)%nat in Hhi.
  rewrite bucket_counts_take, lookup_take_lt by lia.
  unfold bin_lengths.
  rewrite bin_lengths_skip by (try exact Hno; rewrite length_replicate; cbn; lia).
  apply lookup_replicate_2. cbn. lia.
Qed.

Lemma inverted_range_is_empty_witness :
  (forall l, in_range (bins args_300) 2 l = false) /\
  bucket_counts args_300 [10; 299; 300; 301; 499; 2000] !! 2%nat = Some 0.
Proof.
  apply (inverted_range_is_empty args_300 [10; 299; 300; 301; 499; 2000] 2
           (Fin 300) (Fin 300)); reflexivity.
Defined.

(** * Properties of the report *)

Section Report.

Implicit Types (f : list chunk) (args : Args) (w : World).

Lemma wbind_write {B} c (k : unit -> Writer B) f :
  wbind (write c) k f = k tt (f ++ [c]).
Proof. reflexivity. Qed.

Lemma wbind_eval_ok {A B} (a : A) (k : A -> Writer B) f :
  wbind (eval (Ok a)) k f = k a f.
Proof. reflexivity. Qed.

Lemma truediv_ok a b :
  b <> 0 -> truediv a b = Ok (inject_Z a / inject_Z b)%Q.
Proof. intros Hb. unfold truediv. now rewrite (proj2 (Z.eqb_neq b 0) Hb). Qed.

Lemma wbind_run {A B} (m : Writer A) (k : A -> Writer B) f a f' :
  m f = (Ok a, f') -> wbind m k f = k a f'.
Proof. intros H. unfold wbind. now rewrite H. Qed.

Lemma percent_of_ok c tc :
  tc <> 0 -> percent_of c tc = Ok (inject_Z c / inject_Z tc * 100)%Q.
Proof. intros Htc. unfold percent_of. now rewrite truediv_ok. Qed.

(** The loop over the distribution writes one line per bucket when
    [total_count] is not zero. *)
Lemma for_each_dist tc (d : list (string * Z)) f :
  tc <> 0 ->
  for_each d (fun '(label, count) =>
                percent <- eval (percent_of count tc) ;;
                write (DistLine label count percent)) f
  = (Ok tt, f ++ dist_lines tc d).
Proof.
  intros Htc. revert f. induction d as [|[label count] d IH]; intros f.
  - cbn. now rewrite app_nil_r.
  - cbn [for_each dist_lines List.map].
    rewrite (wbind_run _ _ f tt
               (f ++ [DistLine label count
                        (inject_Z count / inject_Z tc * 100)%Q])).
    + fold (dist_lines tc d). rewrite IH, <- app_assoc. reflexivity.
    + rewrite percent_of_ok by exact Htc. reflexivity.
Qed.

(** The loop over the identifiers never fails. *)
Lemma for_each_ids i (ids : list string) f :
  for_each (enumerate_from i ids) (fun '(i, seq_id) =>
    write (IdLine (i + 1) seq_id) ;;
    if (i + 1) mod 50 =? 0 then write IdSeparator else wret tt) f
  = (Ok tt, f ++ id_lines i ids).
Proof.
  revert i f. induction ids as [|seq_id ids IH]; intros i f.
  - cbn. now rewrite app_nil_r.
  - cbn [enumerate_from for_each].
    unfold id_lines. cbn [enumerate_from flat_map].
    fold (id_lines (i + 1) ids).
    destruct ((i + 1) mod 50 =? 0).
    + rewrite (wbind_run _ _ f tt (f ++ [IdLine (i + 1) seq_id; IdSeparator])).
      * rewrite IH. cbn [app]. now rewrite <- !app_assoc.
      * rewrite wbind_write. unfold write. now rewrite <- app_assoc.
    + rewrite (wbind_run _ _ f tt (f ++ [IdLine (i + 1) seq_id])).
      * rewrite IH. cbn [app]. now rewrite <- !app_assoc.
      * reflexivity.
Qed.

(** With the statistics defined and a non-zero [total_count] the body of
    the [with] block runs to its end and writes the whole report. *)
Lemma report_body_complete args ts pct lc tc ids lens lo hi avg :
  min lens = Ok lo -> max lens = Ok hi -> mean lens = Ok avg -> tc <> 0 ->
  report_body args ts pct lc tc ids lens []
  = (Ok tt, complete_report args ts pct lc tc ids lens lo hi avg).
Proof.
  intros Hlo Hhi Havg Htc. unfold report_body, report_body_with.
  rewrite !wbind_write, Hlo, wbind_eval_ok, wbind_write.
  rewrite Hhi, wbind_eval_ok, wbind_write.
  rewrite Havg, wbind_eval_ok, !wbind_write.
  rewrite (wbind_run _ _ _ tt _ (for_each_dist tc _ _ Htc)).
  rewrite !wbind_write. rewrite for_each_ids.
  unfold complete_report, report_head. cbn [app].
  rewrite <- !app_assoc. reflexivity.
Qed.

(** Without any length the body stops at [min(all_lengths)], after the
    head of the report has been written. *)
Lemma report_body_empty args ts pct lc tc ids :
  report_body args ts pct lc tc ids [] []
  = (Raise (ValueError "min() arg is an empty sequence"),
     report_head args ts pct lc tc).
Proof. reflexivity. Qed.

Lemma foldl_add_from a cs : foldl Z.add a cs = a + foldl Z.add 0 cs.
Proof.
  revert a. induction cs as [|x cs IH]; intros a; cbn [foldl]; [lia|].
  rewrite (IH (a + x)), (IH (0 + x)). lia.
Qed.

Lemma sum_cons c cs : Py.sum (c :: cs) = c + Py.sum cs.
Proof. unfold Py.sum. cbn [foldl]. rewrite foldl_add_from. lia. Qed.

Lemma dist_percents_app f1 f2 :
  dist_percents (f1 ++ f2) = dist_percents f1 ++ dist_percents f2.
Proof. unfold dist_percents. apply flat_map_app. Qed.

Lemma dist_percents_dist_lines tc d :
  dist_percents (dist_lines tc d)
  = List.map (fun c => inject_Z c / inject_Z tc * 100)%Q d.*2.
Proof.
  induction d as [|[label count] d IH]; [reflexivity|].
  cbn. f_equal. exact IH.
Qed.

Lemma dist_percents_id_lines i ids : dist_percents (id_lines i ids) = [].
Proof.
  revert i. induction ids as [|x ids IH]; intros i; [reflexivity|].
  unfold id_lines. cbn [enumerate_from flat_map].
  fold (id_lines (i + 1) ids).
  rewrite dist_percents_app, IH.
  destruct ((i + 1) mod 50 =? 0); reflexivity.
Qed.

Lemma dist_percents_complete args ts pct lc tc ids lens lo hi avg :
  dist_percents (complete_report args ts pct lc tc ids lens lo hi avg)
  = List.map (fun c => inject_Z c / inject_Z tc * 100)%Q (bucket_counts args lens).
Proof.
  unfold complete_report. rewrite !dist_percents_app.
  rewrite dist_percents_dist_lines, dist_percents_id_lines.
  cbn [report_head dist_percents flat_map app]. now rewrite app_nil_r.
Qed.

Lemma Qsum_percents tc (cs : list Z) :
  tc <> 0 ->
  (Qsum (List.map (fun c => inject_Z c / inject_Z tc * 100) cs)
   == inject_Z (Py.sum cs) / inject_Z tc * 100)%Q.
Proof.
  intros Htc.
  assert (Hq : ~ (inject_Z tc == 0)%Q).
  { intros H. apply Htc. unfold Qeq in H. cbn in H. lia. }
  induction cs as [|c cs IH].
  - cbn. unfold Py.sum. cbn. field. exact Hq.
  - cbn [List.map Qsum foldr]. fold (Qsum (List.map
      (fun c => inject_Z c / inject_Z tc * 100)%Q cs)).
    rewrite IH, sum_cons, inject_Z_plus. field. exact Hq.
Qed.

Lemma min_max_mean_defined (lens : list Z) :
  lens <> [] -> exists lo hi avg,
    min lens = Ok lo /\ max lens = Ok hi /\ mean lens = Ok avg.
Proof.
  intros Hne. destruct lens as [|x lens]; [congruence|].
  eexists _, _, _. split; [reflexivity | split; [reflexivity|]].
  unfold mean. apply truediv_ok. unfold len. cbn [List.length]. lia.
Qed.

End Report.

Section Pipeline.

Implicit Types (w : World) (args : Args) (fasta : parse_stream).

Lemma headline_percentage_ok lc tc :
  exists pct, headline_percentage lc tc = Ok pct.
Proof.
  unfold headline_percentage. destruct (Z.gtb_spec tc 0); [|now eexists].
  rewrite truediv_ok by lia. now eexists.
Qed.

Lemma generate_report_complete w args lc tc ids lens :
  open_output w = None -> lens <> [] -> tc <> 0 ->
  exists pct lo hi avg,
    generate_report w args lc tc ids lens
    = (Ok ("报告已保存至: " +:+ output args),
       Some (complete_report args (now w) pct lc tc ids lens lo hi avg)).
Proof.
  intros Hopen Hne Htc.
  destruct (headline_percentage_ok lc tc) as [pct Hpct].
  destruct (min_max_mean_defined lens Hne) as (lo & hi & avg & Hlo & Hhi & Havg).
  exists pct, lo, hi, avg. unfold generate_report, generate_report_with.
  rewrite Hpct, Hopen.
  now rewrite (report_body_complete _ _ _ _ _ _ _ lo hi avg).
Qed.

Lemma generate_report_not_opened w args lc tc ids lens e :
  open_output w = Some e ->
  generate_report w args lc tc ids lens = (Raise e, None).
Proof.
  intros Hopen. destruct (headline_percentage_ok lc tc) as [pct Hpct].
  unfold generate_report, generate_report_with. now rewrite Hpct, Hopen.
Qed.

Lemma analyzer_lengths fasta t lc tc ids lens :
  count_long_sequences fasta t = Ok (lc, tc, ids, lens) ->
  tc = len lens /\ Forall (fun n => 0 <= n) lens.
Proof.
  intros H. apply count_long_sequences_ok in H as (_ & _ & -> & _ & ->).
  split.
  - unfold len. now rewrite length_fmap.
  - apply Forall_fmap, Forall_forall. intros r _. apply seq_length_nonneg.
Qed.

Lemma terminal_summary_ok lc tc lens :
  lens <> [] -> tc <> 0 -> terminal_summary lc tc lens = Ok tt.
Proof.
  intros Hne Htc.
  destruct (min_max_mean_defined lens Hne) as (lo & hi & avg & Hlo & Hhi & Havg).
  unfold terminal_summary.
  now rewrite percent_of_ok, Hlo, Hhi, Havg by exact Htc.
Qed.

End Pipeline.

(** ** Percentages *)

(** C7: for a corpus with [total_count > 0] the report is written to its
    end and the six percentages of its distribution block, each
    [count / total_count * 100] taken as an exact rational, add up to
    100. *)
Theorem percentages_sum_to_100 (fasta : parse_stream) (t lc tc : Z)
    (ids : list string) (lens : list Z) (w : World) (args : Args) :
  count_long_sequences fasta t = Ok (lc, tc, ids, lens) ->
  0 < tc ->
  open_output w = None ->
  exists msg f,
    generate_report w args lc tc ids lens = (Ok msg, Some f) /\
    List.length (dist_percents f) = 6%nat /\
    (Qsum (dist_percents f) == 100)%Q.
Proof.
  intros Hc Htc Hopen.
  destruct (analyzer_lengths _ _ _ _ _ _ Hc) as [Hlen Hpos].
  assert (Hne : lens <> []).
  { intros ->. unfold len in Hlen. cbn in Hlen. lia. }
  destruct (generate_report_complete w args lc tc ids lens Hopen Hne
              ltac:(lia)) as (pct & lo & hi & avg & Hrep).
  eexists _, _. split; [exact Hrep|].
  rewrite dist_percents_complete. split.
  - rewrite length_map. apply bucket_counts_length.
  - rewrite Qsum_percents by lia.
    rewrite bucket_counts_sum, <- Hlen by exact Hpos.
    field. intros H. unfold Qeq in H. cbn in H. lia.
Qed.

Lemma percentages_sum_to_100_witness :
  exists msg f,
    generate_report quiet_world sample_args 2 4 ["b"; "d"] [4; 6; 0; 6]
    = (Ok msg, Some f) /\
    List.length (dist_percents f) = 6%nat /\
    (Qsum (dist_percents f) == 100)%Q.
Proof.
  apply (percentages_sum_to_100 sample_fasta 4 2 4 ["b"; "d"] [4; 6; 0; 6]
           quiet_world sample_args); [reflexivity | lia | reflexivity].
Defined.

(** ** Failures and the report file *)

(** C2 (as the claim states it, refuted): on a stream that yields no
    record the analyzer raises nothing; it returns zero counts and empty
    lists, and the headline percentage of the report is set to 0. *)
Lemma empty_corpus_is_not_an_error :
  is_raise (count_long_sequences empty_fasta 428) = false /\
  count_long_sequences empty_fasta 428 = Ok (0, 0, [], []) /\
  headline_percentage 0 0 = Ok 0%Q.
Proof. repeat split. Qed.

(** C2 (amended): on a stream that yields no record and ends normally the
    analyzer returns [long_count = 0], [total_count = 0] and two empty
    lists, for every threshold, without raising; and for
    [total_count = 0] the headline percentage is 0 by the guard of
    [generate_report]. *)
Theorem empty_corpus_returns_zeros (t lc : Z) :
  count_long_sequences empty_fasta t = Ok (0, 0, [], []) /\
  headline_percentage lc 0 = Ok 0%Q.
Proof. split; reflexivity. Qed.

(** ** A disk that gives out *)

Section Disk.

Variables (k : nat) (e : exn).

Implicit Types (f : list chunk) (w : World) (args : Args).

Lemma appends_write c : appends (write c).
Proof. intros f. now exists (Ok tt), [c]. Qed.

Lemma fails_after_write c :
  fails_after k e (write c) (write_on (Some (k, e)) c).
Proof.
  split; [apply appends_write|]. intros f Hf.
  unfold write_on, write, cut_at. cbn [snd].
  rewrite length_app. cbn [List.length].
  destruct (Nat.ltb_spec (List.length f) k) as [Hlt|Hge].
  - destruct (Nat.ltb_spec k (List.length f + 1)); [lia | reflexivity].
  - destruct (Nat.ltb_spec k (List.length f + 1)); [|lia].
    rewrite take_app_le by lia. now rewrite take_ge by lia.
Qed.

Lemma fails_after_eval {A} (r : res A) : fails_after k e (eval r) (eval r).
Proof.
  split.
  - intros f. exists r, []. unfold eval. now rewrite app_nil_r.
  - intros f Hf. unfold eval, cut_at. cbn [snd].
    destruct (Nat.ltb_spec k (List.length f)); [lia | reflexivity].
Qed.

Lemma fails_after_ret {A} (a : A) : fails_after k e (wret a) (wret a).
Proof. apply (fails_after_eval (Ok a)). Qed.

Lemma fails_after_bind {A B} (m m' : Writer A) (g g' : A -> Writer B) :
  fails_after k e m m' -> (forall a, fails_after k e (g a) (g' a)) ->
  fails_after k e (wbind m g) (wbind m' g').
Proof.
  intros [Hm Hm'] Hg. split.
  - intros f. destruct (Hm f) as (r & x & Hr). unfold wbind. rewrite Hr.
    destruct r as [a|e0].
    + destruct (Hg a) as [Ha _]. destruct (Ha (f ++ x)) as (r' & y & Hr').
      exists r', (x ++ y). now rewrite Hr', app_assoc.
    + now exists (Raise e0), x.
  - intros f Hf. unfold wbind. rewrite (Hm' f Hf).
    destruct (Hm f) as (r & x & Hr). rewrite Hr. unfold cut_at at 1.
    cbn [snd].
    destruct (Nat.ltb_spec k (List.length (f ++ x))) as [Hlt|Hge].
    + destruct r as [a|e0].
      * destruct (Hg a) as [Ha _]. destruct (Ha (f ++ x)) as (r' & y & Hr').
        rewrite Hr'. unfold cut_at. cbn [snd].
        destruct (Nat.ltb_spec k (List.length ((f ++ x) ++ y))) as [_|Hy];
          [|rewrite length_app in Hy; lia].
        now rewrite (take_app_le (f ++ x) y) by lia.
      * unfold cut_at. cbn [snd].
        destruct (Nat.ltb_spec k (List.length (f ++ x))); [reflexivity | lia].
    + destruct r as [a|e0].
      * destruct (Hg a) as [_ Ha]. now apply Ha.
      * unfold cut_at. cbn [snd].
        destruct (Nat.ltb_spec k (List.length (f ++ x))); [lia | reflexivity].
Qed.

Lemma fails_after_for_each {A} (l : list A) (body body' : A -> Writer unit) :
  (forall x, fails_after k e (body x) (body' x)) ->
  fails_after k e (for_each l body) (for_each l body').
Proof.
  intros Hb. induction l as [|x l IH]; cbn [for_each].
  - apply fails_after_ret.
  - apply fails_after_bind; [apply Hb | intros _; exact IH].
Qed.

(** The block of the report on the failing disk is the block on a sound
    disk, cut at the failing write. *)
Lemma report_body_fails_after args ts pct lc tc ids lens :
  fails_after k e (report_body args ts pct lc tc ids lens)
    (report_body_with (write_on (Some (k, e))) args ts pct lc tc ids lens).
Proof.
  unfold report_body, report_body_with.
  repeat first
    [ apply fails_after_write
    | apply fails_after_eval
    | apply fails_after_ret
    | apply fails_after_bind; [|intros ?]
    | apply fails_after_for_each; intros [? ?]
    | match goal with |- context [if ?c then _ else _] => destruct c end ].
Qed.

Lemma generate_report_fails_after w args lc tc ids lens :
  generate_report_with (write_on (Some (k, e))) w args lc tc ids lens
  = match generate_report w args lc tc ids lens with
    | (r, Some f) =>
        if (k <? List.length f)%nat then (Raise e, Some (take k f))
        else (r, Some f)
    | o => o
    end.
Proof.
  unfold generate_report, generate_report_with.
  destruct (headline_percentage lc tc) as [pct|e0]; [|reflexivity].
  destruct (open_output w); [reflexivity|].
  destruct (report_body_fails_after args (now w) pct lc tc ids lens)
    as [_ H].
  rewrite (H [] ltac:(cbn; lia)). fold (report_body args (now w) pct lc tc ids lens).
  destruct (report_body args (now w) pct lc tc ids lens []) as [[u|e0] f];
    unfold cut_at; cbn [snd];
    destruct (k <? List.length f)%nat; reflexivity.
Qed.

End Disk.

Lemma generate_report_sound_disk w args lc tc ids lens :
  generate_report_with (write_on None) w args lc tc ids lens
  = generate_report w args lc tc ids lens.
Proof. reflexivity. Qed.

Section Run.

Implicit Types (w : World) (args : Args) (fasta : parse_stream).

Lemma generate_report_with_not_opened wr w args lc tc ids lens e :
  open_output w = Some e ->
  generate_report_with wr w args lc tc ids lens = (Raise e, None).
Proof.
  intros Hopen. destruct (headline_percentage_ok lc tc) as [pct Hpct].
  unfold generate_report_with. now rewrite Hpct, Hopen.
Qed.

(** Every run of [main]: either it stops before the report is opened, or
    the analysis has succeeded on at least one record and the report is
    written, up to the write at which the disk gives out, before the
    summary is printed. *)
Lemma main_outcome w args fasta :
  (exists e, main w args fasta = (e, None) /\ e <> Finished /\
     (input_is_file w = false \/ ending fasta <> None \/ yielded fasta = [] \/
      chart_draw w <> None \/ chart_save w <> None \/ open_output w <> None))
  \/
  (input_is_file w = true /\ ending fasta = None /\ yielded fasta <> [] /\
   chart_draw w = None /\ chart_save w = None /\ open_output w = None /\
   exists lc tc ids lens pct lo hi avg,
     count_long_sequences fasta (min_length args) = Ok (lc, tc, ids, lens) /\
     let whole := complete_report args (now w) pct lc tc ids lens lo hi avg in
     let printed :=
       match terminal w with
       | Some e => (Uncaught e, Some whole)
       | None => (Finished, Some whole)
       end in
     main w args fasta
     = match disk w with
       | Some (k, e) =>
           if (k <? List.length whole)%nat
           then (Uncaught e, Some (take k whole)) else printed
       | None => printed
       end).
Proof.
  unfold main. destruct (input_is_file w); cbn [negb];
    [|left; eexists; repeat split; [discriminate | now left]].
  destruct (count_long_sequences fasta (min_length args))
    as [[[[lc tc] ids] lens]|e] eqn:Hc.
  2:{ left. eexists. repeat split; [discriminate|]. right. left.
      unfold count_long_sequences in Hc.
      destruct (ending fasta); [discriminate | discriminate]. }
  destruct (analyzer_lengths _ _ _ _ _ _ Hc) as [Hlen _].
  pose proof (count_long_sequences_ok _ _ _ _ _ _ Hc)
    as (Hend & _ & _ & _ & Hlens).
  unfold plot_length_distribution.
  destruct (chart_draw w);
    [left; eexists; repeat split; [discriminate | do 3 right; left; discriminate]|].
  destruct lens as [|x lens].
  { left. eexists. repeat split; [discriminate|]. do 2 right. left.
    symmetry in Hlens. now apply fmap_nil_inv in Hlens. }
  cbn [min max].
  destruct (chart_save w);
    [left; eexists; repeat split; [discriminate | do 4 right; left; discriminate]|].
  assert (Htc : tc <> 0) by (unfold len in Hlen; cbn [List.length] in Hlen; lia).
  destruct (open_output w) as [e|] eqn:Hopen.
  { rewrite (generate_report_with_not_opened _ _ _ _ _ _ _ e Hopen).
    left. eexists. repeat split; [discriminate | do 5 right; discriminate]. }
  destruct (generate_report_complete w args lc tc ids (x :: lens) Hopen
              ltac:(discriminate) Htc) as (pct & lo & hi & avg & Hrep).
  right. split; [reflexivity|]. split; [exact Hend|].
  split; [intros Hnil; rewrite Hnil in Hlens; discriminate|].
  do 3 (split; [reflexivity|]).
  exists lc, tc, ids, (x :: lens), pct, lo, hi, avg. split; [reflexivity|].
  cbv zeta. rewrite terminal_summary_ok by (discriminate || exact Htc).
  destruct (disk w) as [[k e]|].
  - rewrite generate_report_fails_after, Hrep.
    destruct (k <? _)%nat; [reflexivity|].
    destruct (terminal w); reflexivity.
  - rewrite generate_report_sound_disk, Hrep.
    destruct (terminal w); reflexivity.
Qed.

End Run.



(** A run whose terminal cannot show the summary fails after the report
    has been closed: the whole report is at the destination. *)
Example summary_refused_after_report :
  exists whole,
    main ascii_terminal_world sample_args sample_fasta
    = (Uncaught (ValueError "'ascii' codec can't encode characters"),
       Some whole) /\
    main quiet_world sample_args sample_fasta = (Finished, Some whole).
Proof. eexists. split; reflexivity. Qed.

(** * Further properties of the analyzer *)

Section AnalyzerMore.

Implicit Types (s : string) (r : SeqRecord) (rs : list SeqRecord) (t : Z).

Lemma not_gap_spec (c : ascii) : not_gap c = true <-> c <> "-"%char.
Proof.
  unfold not_gap. rewrite negb_true_iff. apply Ascii.eqb_neq.
Qed.

Lemma cleaned_has_no_gap s : "-"%char ∉ chars (replace s "-" "").
Proof.
  rewrite chars_replace_gap, list_elem_of_In, List.filter_In.
  intros [_ H]. now apply not_gap_spec in H.
Qed.

Lemma replace_gap_fixpoint s :
  gaps s = 0%nat -> replace s "-" "" = s.
Proof.
  unfold gaps, chars. induction s as [|c s IH]; [reflexivity|].
  cbn [list_ascii_of_string count_occ replace].
  destruct (ascii_dec c "-") as [->|Hne]; [discriminate|].
  intros H. apply Ascii.eqb_neq in Hne. rewrite Hne. f_equal. now apply IH.
Qed.

Lemma gaps_cleaned s : gaps (replace s "-" "") = 0%nat.
Proof.
  unfold gaps. apply count_occ_not_In. rewrite <- list_elem_of_In.
  apply cleaned_has_no_gap.
Qed.

Lemma long_filter_all t rs :
  t < 0 -> filter (is_long t) rs = rs.
Proof.
  intros Ht. induction rs as [|r rs IH]; [reflexivity|].
  rewrite filter_cons, decide_True, IH; [reflexivity|].
  unfold is_long. pose proof (seq_length_nonneg r). lia.
Qed.

End AnalyzerMore.

(** The length of a record lies between 0 and the size of its body and
    reaches the size exactly when the body has no gap; the cleaned
    sequence holds no gap, and cleaning it again changes nothing. *)
Theorem seq_length_bounds (r : SeqRecord) :
  0 <= seq_length r <= len_str (seq r) /\
  (seq_length r = len_str (seq r) <-> gaps (seq r) = 0%nat) /\
  ("-"%char ∉ chars (replace (seq r) "-" "")) /\
  replace (replace (seq r) "-" "") "-" "" = replace (seq r) "-" "".
Proof.
  pose proof (filter_not_gap_count (chars (seq r))) as Hc.
  pose proof (length_chars (seq r)) as Hl.
  rewrite seq_length_filter. unfold len_str, gaps.
  repeat split; try lia.
  - apply cleaned_has_no_gap.
  - apply replace_gap_fixpoint, gaps_cleaned.
Qed.

(** Analysing two batches of records one after the other is analysing
    their concatenation: the counts add up and the lists are appended. *)
Theorem count_long_sequences_app (rs1 rs2 : list SeqRecord) (t : Z)
    (lc1 tc1 lc2 tc2 : Z) (ids1 ids2 : list string) (lens1 lens2 : list Z) :
  count_long_sequences (mkStream rs1 None) t = Ok (lc1, tc1, ids1, lens1) ->
  count_long_sequences (mkStream rs2 None) t = Ok (lc2, tc2, ids2, lens2) ->
  count_long_sequences (mkStream (rs1 ++ rs2) None) t
  = Ok (lc1 + lc2, tc1 + tc2, ids1 ++ ids2, lens1 ++ lens2).
Proof.
  intros H1 H2.
  apply count_long_sequences_ok in H1 as (_ & -> & -> & -> & ->).
  apply count_long_sequences_ok in H2 as (_ & -> & -> & -> & ->).
  unfold count_long_sequences. cbn [yielded ending].
  rewrite count_loop. cbn [long_count total_count long_ids all_lengths counters0].
  rewrite filter_app, !fmap_app. unfold len. rewrite !length_app.
  cbn [app]. f_equal. rewrite !pair_equal_spec.
  repeat split; (reflexivity || lia).
Qed.

Lemma count_long_sequences_app_witness :
  count_long_sequences
    (mkStream ([mkRecord "a" "AC--GT"; mkRecord "b" "ACGT--AA"]
               ++ [mkRecord "c" "--"; mkRecord "d" "ACGTAC"]) None) 4
  = Ok (1 + 1, 2 + 2, ["b"] ++ ["d"], [4; 6] ++ [0; 6]).
Proof.
  apply (count_long_sequences_app _ _ 4 1 2 1 2 ["b"] ["d"] [4; 6] [0; 6]);
    reflexivity.
Defined.

(** The threshold only selects: [total_count] and [all_lengths] are the
    same under any two thresholds. *)
Theorem totals_do_not_depend_on_threshold (fasta : parse_stream)
    (t1 t2 lc1 tc1 lc2 tc2 : Z) (ids1 ids2 : list string)
    (lens1 lens2 : list Z) :
  count_long_sequences fasta t1 = Ok (lc1, tc1, ids1, lens1) ->
  count_long_sequences fasta t2 = Ok (lc2, tc2, ids2, lens2) ->
  tc1 = tc2 /\ lens1 = lens2.
Proof.
  intros H1 H2.
  apply count_long_sequences_ok in H1 as (_ & _ & -> & _ & ->).
  apply count_long_sequences_ok in H2 as (_ & _ & -> & _ & ->).
  split; reflexivity.
Qed.

Lemma totals_do_not_depend_on_threshold_witness :
  4 = 4 /\ [4; 6; 0; 6] = [4; 6; 0; 6].
Proof.
  apply (totals_do_not_depend_on_threshold sample_fasta 3 4 3 4 2 4
           ["a"; "b"; "d"] ["b"; "d"] [4; 6; 0; 6] [4; 6; 0; 6]);
    reflexivity.
Defined.

(** Under a negative threshold every record is long, records without any
    residue included: [long_count = total_count] and [long_ids] lists
    every identifier. *)
Theorem negative_threshold_all_long (fasta : parse_stream) (t lc tc : Z)
    (ids : list string) (lens : list Z) :
  t < 0 ->
  count_long_sequences fasta t = Ok (lc, tc, ids, lens) ->
  lc = tc /\ ids = (id <$> yielded fasta).
Proof.
  intros Ht H.
  apply count_long_sequences_ok in H as (_ & -> & -> & -> & _).
  rewrite long_filter_all by exact Ht. split; reflexivity.
Qed.

Lemma negative_threshold_all_long_witness :
  4 = 4 /\ ["a"; "b"; "c"; "d"] = (id <$> yielded sample_fasta).
Proof.
  apply (negative_threshold_all_long sample_fasta (-1) 4 4
           ["a"; "b"; "c"; "d"] [4; 6; 0; 6]); [lia | reflexivity].
Defined.

(** No record is reported long exactly when no recorded length exceeds the
    threshold; [long_ids] is then empty. *)
Theorem long_count_zero_iff (fasta : parse_stream) (t lc tc : Z)
    (ids : list string) (lens : list Z) :
  count_long_sequences fasta t = Ok (lc, tc, ids, lens) ->
  (lc = 0 <-> Forall (fun n => n <= t) lens) /\ (lc = 0 <-> ids = []).
Proof.
  intros H.
  apply count_long_sequences_ok in H as (_ & -> & _ & -> & ->).
  assert (Hnil : forall rs : list SeqRecord,
             filter (is_long t) rs = [] <->
             Forall (fun n => n <= t) (seq_length <$> rs)).
  { intros rs. induction rs as [|r rs IH]; [split; constructor|].
    rewrite filter_cons, fmap_cons, Forall_cons.
    destruct (decide (is_long t r)) as [Hl|Hl]; unfold is_long in Hl.
    - split; [discriminate | intros [? _]; lia].
    - rewrite IH. split; [intros ?; split; [lia | assumption] | now intros [_ ?]]. }
  unfold len. split.
  - rewrite <- Hnil. split.
    + intros Hz. apply length_zero_iff_nil. lia.
    + now intros ->.
  - split.
    + intros Hz. assert (filter (is_long t) (yielded fasta) = []) as ->
        by (apply length_zero_iff_nil; lia). reflexivity.
    + intros Hz. apply fmap_nil_inv in Hz. now rewrite Hz.
Qed.

Lemma long_count_zero_iff_witness :
  (0 = 0 <-> Forall (fun n => n <= 6) [4; 6; 0; 6]) /\
  (0 = 0 <-> @nil string = []).
Proof.
  apply (long_count_zero_iff sample_fasta 6 0 4 [] [4; 6; 0; 6]). reflexivity.
Defined.

(** * Further properties of the binner *)

Section BinnerMore.

Implicit Types (args : Args) (bc lens : list Z) (t l : Z) (i : nat).

Lemma bin_one_slot args l bc :
  bin_one (bins args) l (List.seq 0 6) bc
  = match slot_of (min_length args) l with
    | Some i => incr i bc
    | None => bc
    end.
Proof.
  unfold slot_of. destruct (Z.ltb_spec l 0) as [Hneg|Hpos];
    [|now apply bin_one_bucket].
  destruct (in_range_bins args l) as (E0 & E1 & E2 & E3 & E4 & E5).
  cbn [List.seq bin_one]. rewrite E0, E1, E2, E3, E4, E5.
  change (bound_leb (last_bound (bins args)) (Fin l)) with false.
  cases_bool; (reflexivity || lia).
Qed.

Lemma bucket_test_slot t i l :
  bucket_test t i l = true <-> slot_of t l = Some i.
Proof.
  unfold slot_of, bucket_of.
  do 6 (destruct i as [|i];
        [cbn [bucket_test]; cases_bool; cbn;
         split; (discriminate || reflexivity || lia || (intros [=]; lia))|]).
  cbn [bucket_test]. cases_bool; split; (discriminate || (intros [=]; lia)).
Qed.

Lemma how_many_cons (P : Z -> bool) l lens :
  how_many P (l :: lens) = (if P l then 1 else 0) + how_many P lens.
Proof.
  unfold how_many, len. cbn [List.filter].
  destruct (P l); cbn [List.length]; lia.
Qed.

Lemma how_many_app (P : Z -> bool) lens1 lens2 :
  how_many P (lens1 ++ lens2) = how_many P lens1 + how_many P lens2.
Proof.
  unfold how_many, len. rewrite List.filter_app, length_app. lia.
Qed.

Lemma how_many_perm (P : Z -> bool) lens1 lens2 :
  lens1 ≡ₚ lens2 -> how_many P lens1 = how_many P lens2.
Proof.
  induction 1 as [|x l1 l2 _ IH|x y l0|l1 l2 l3 _ IH1 _ IH2].
  - reflexivity.
  - rewrite !how_many_cons. lia.
  - rewrite !how_many_cons. lia.
  - congruence.
Qed.

(** Each cell after the loop: its value before, plus the number of lengths
    that fall into it. *)
Lemma bin_fold_lookup args lens bc i :
  foldl (fun bin_counts length =>
           bin_one (bins args) length
             (List.seq 0 (List.length (bins args) - 1)) bin_counts) bc lens
    !! i
  = (fun c => c + how_many (bucket_test (min_length args) i) lens) <$> bc !! i.
Proof.
  revert bc. induction lens as [|l lens IH]; intros bc.
  - cbn [foldl]. destruct (bc !! i) as [c|]; cbn; [|reflexivity].
    unfold how_many, len. cbn. f_equal. lia.
  - cbn [foldl]. rewrite IH.
    change (List.length (bins args) - 1)%nat with 6%nat.
    rewrite bin_one_slot, how_many_cons.
    pose proof (bucket_test_slot (min_length args) i l) as Hs.
    destruct (slot_of (min_length args) l) as [j|].
    + unfold incr. destruct (decide (j = i)) as [->|Hne].
      * rewrite list_lookup_alter_eq, (proj2 Hs eq_refl).
        destruct (bc !! i); cbn; [f_equal; lia | reflexivity].
      * rewrite list_lookup_alter_ne by exact Hne.
        destruct (bucket_test (min_length args) i l).
        { destruct Hs as [Hs _]. specialize (Hs eq_refl). congruence. }
        destruct (bc !! i); cbn; [f_equal; lia | reflexivity].
    + destruct (bucket_test (min_length args) i l).
      { destruct Hs as [Hs _]. specialize (Hs eq_refl). discriminate. }
      destruct (bc !! i); cbn; [f_equal; lia | reflexivity].
Qed.

Lemma bin_lengths_lookup args lens i :
  (i < 7)%nat ->
  bin_lengths (bins args) lens !! i
  = Some (how_many (bucket_test (min_length args) i) lens).
Proof.
  intros Hi. unfold bin_lengths. rewrite bin_fold_lookup.
  rewrite lookup_replicate_2 by (cbn; lia). reflexivity.
Qed.

Lemma bin_lengths_closed args lens :
  bin_lengths (bins args) lens
  = (fun i => how_many (bucket_test (min_length args) i) lens)
    <$> [0; 1; 2; 3; 4; 5; 6]%nat.
Proof.
  apply list_eq. intros i. destruct (decide (i < 7)%nat) as [Hi|Hi].
  - rewrite bin_lengths_lookup by exact Hi.
    do 7 (destruct i as [|i]; [reflexivity|]). lia.
  - rewrite !lookup_ge_None_2; [reflexivity | cbn; lia |].
    unfold bin_lengths. rewrite bin_lengths_from_length, length_replicate.
    cbn. lia.
Qed.

Lemma bucket_counts_closed args lens :
  bucket_counts args lens
  = (fun i => how_many (bucket_test (min_length args) i) lens)
    <$> [0; 1; 2; 3; 4; 5]%nat.
Proof. rewrite bucket_counts_take, bin_lengths_closed. reflexivity. Qed.

Lemma long_filter_how_many t (rs : list SeqRecord) :
  len (filter (is_long t) rs) = how_many (fun n => t <? n) (seq_length <$> rs).
Proof.
  induction rs as [|r rs IH]; [reflexivity|].
  rewrite fmap_cons, how_many_cons, filter_cons, <- IH. unfold len.
  destruct (decide (is_long t r)) as [H|H]; unfold is_long in H;
    destruct (Z.ltb_spec t (seq_length r)); cbn [List.length]; lia.
Qed.

End BinnerMore.

(** The seventh counter, reserved by the [else] branch for lengths at or
    above [float('inf')], is never incremented, whatever the lengths. *)
Theorem seventh_cell_stays_zero (args : Args) (lens : list Z) :
  List.length (bin_lengths (bins args) lens) = 7%nat /\
  bin_lengths (bins args) lens !! 6%nat = Some 0.
Proof.
  split.
  - unfold bin_lengths. now rewrite bin_lengths_from_length, length_replicate.
  - rewrite bin_lengths_lookup by lia. f_equal.
    induction lens as [|l lens IH]; [reflexivity|].
    rewrite how_many_cons, IH. reflexivity.
Qed.

(** What each of the six buckets counts, for integer lengths of any sign:
    the lengths of its range that no earlier range has taken.  So the
    fourth bucket leaves [[0, 300)] to the first two, and the last two
    leave what lies below the threshold to the third. *)
Theorem bucket_counts_closed_form (args : Args) (lens : list Z) :
  let t := min_length args in
  bucket_counts args lens =
  [how_many (fun l => (0 <=? l) && (l <? 100)) lens;
   how_many (fun l => (100 <=? l) && (l <? 300)) lens;
   how_many (fun l => (300 <=? l) && (l <? t)) lens;
   how_many (fun l => (t <=? l) && (l <? 500) && ((l <? 0) || (300 <=? l))) lens;
   how_many (fun l => (500 <=? l) && (l <? 1000) && (t <=? l)) lens;
   how_many (fun l => (1000 <=? l) && (t <=? l)) lens].
Proof. cbv zeta. rewrite bucket_counts_closed. reflexivity. Qed.

(** For integer lengths of any sign the six counts add up to the number of
    lengths that are non-negative or at least the threshold; a negative
    length below the threshold is counted nowhere. *)
Theorem bucket_counts_sum_any_sign (args : Args) (lens : list Z) :
  Py.sum (bucket_counts args lens)
  = how_many (fun l => (0 <=? l) || (min_length args <=? l)) lens /\
  Py.sum (bucket_counts args lens) <= len lens.
Proof.
  assert (H : Py.sum (bucket_counts args lens)
              = how_many (fun l => (0 <=? l) || (min_length args <=? l)) lens).
  { rewrite bucket_counts_closed. unfold Py.sum. cbn [fmap list_fmap foldl].
    induction lens as [|l lens IH]; [reflexivity|].
    rewrite !how_many_cons. cbn [bucket_test].
    cases_Z; cbn [andb orb]; lia. }
  split; [exact H|]. rewrite H. unfold how_many, len.
  pose proof (List.filter_length_le
                (fun l => (0 <=? l) || (min_length args <=? l)) lens). lia.
Qed.

(** The counts depend on the lengths as a multiset only: reordering the
    lengths leaves every bucket count unchanged. *)
Theorem bucket_counts_permutation (args : Args) (lens1 lens2 : list Z) :
  lens1 ≡ₚ lens2 -> bucket_counts args lens1 = bucket_counts args lens2.
Proof.
  intros Hp. rewrite !bucket_counts_closed.
  apply list_fmap_ext. intros _ i _. now apply how_many_perm.
Qed.

Lemma bucket_counts_permutation_witness :
  bucket_counts sample_args [50; 430; 1200] = bucket_counts sample_args [1200; 50; 430].
Proof.
  apply bucket_counts_permutation.
  change [1200; 50; 430] with ([1200] ++ [50; 430]).
  change [50; 430; 1200] with ([50; 430] ++ [1200]).
  apply Permutation_app_comm.
Defined.

(** Binning two batches of lengths and adding the counts bucket by bucket
    is binning their concatenation. *)
Theorem bucket_counts_app (args : Args) (lens1 lens2 : list Z) :
  bucket_counts args (lens1 ++ lens2)
  = zip_with Z.add (bucket_counts args lens1) (bucket_counts args lens2).
Proof.
  rewrite !bucket_counts_closed. cbn [fmap list_fmap zip_with].
  now rewrite !how_many_app.
Qed.

(** For a threshold between 300 and 500 the last three buckets hold the
    records of length at least the threshold: their counts add up to
    [long_count] plus the number of records whose length is exactly the
    threshold, which the analyzer does not count as long. *)
Theorem upper_buckets_and_long_count (fasta : parse_stream) (args : Args)
    (lc tc : Z) (ids : list string) (lens : list Z) :
  300 <= min_length args <= 500 ->
  count_long_sequences fasta (min_length args) = Ok (lc, tc, ids, lens) ->
  exists c0 c1 c2 c3 c4 c5,
    bucket_counts args lens = [c0; c1; c2; c3; c4; c5] /\
    c3 + c4 + c5 = lc + how_many (fun n => n =? min_length args) lens /\
    lc <= c3 + c4 + c5.
Proof.
  intros Ht H.
  apply count_long_sequences_ok in H as (_ & -> & _ & _ & ->).
  rewrite long_filter_how_many. rewrite bucket_counts_closed.
  cbn [fmap list_fmap]. eexists _, _, _, _, _, _. split; [reflexivity|].
  generalize (seq_length <$> yielded fasta) as lens. intros lens.
  assert (E : how_many (bucket_test (min_length args) 3) lens
              + how_many (bucket_test (min_length args) 4) lens
              + how_many (bucket_test (min_length args) 5) lens
              = how_many (fun n => min_length args <? n) lens
                + how_many (fun n => n =? min_length args) lens).
  { induction lens as [|l lens IH]; [reflexivity|].
    rewrite !how_many_cons. cbn [bucket_test].
    destruct (Z.eqb_spec l (min_length args)); cases_Z; cbn [andb orb]; lia. }
  split; [exact E|]. rewrite E. unfold how_many at 3, len. lia.
Qed.

Lemma upper_buckets_and_long_count_witness :
  exists c0 c1 c2 c3 c4 c5,
    bucket_counts args_300 [4; 6; 0; 6] = [c0; c1; c2; c3; c4; c5] /\
    c3 + c4 + c5 = 0 + how_many (fun n => n =? min_length args_300) [4; 6; 0; 6] /\
    0 <= c3 + c4 + c5.
Proof.
  apply (upper_buckets_and_long_count sample_fasta args_300 0 4 []
           [4; 6; 0; 6]); [cbn; lia | reflexivity].
Defined.

(** * Properties of the statistics *)

Section Statistics.

Implicit Types (l : list Z) (x lo hi : Z).

Lemma foldl_min_spec x l :
  foldl Z.min x l ∈ x :: l /\ Forall (fun y => foldl Z.min x l <= y) (x :: l).
Proof.
  revert x. induction l as [|y l IH]; intros x; cbn [foldl].
  - split; [constructor | repeat constructor; lia].
  - destruct (IH (Z.min x y)) as [Hin Hall].
    apply Forall_cons in Hall as [Hm Hall]. split.
    + apply elem_of_cons in Hin as [Hin|Hin].
      * rewrite Hin. destruct (Z.min_spec x y) as [[_ ->]|[_ ->]];
          [constructor | do 2 constructor].
      * now do 2 constructor.
    + repeat (apply Forall_cons; split); (lia || assumption).
Qed.

Lemma foldl_max_spec x l :
  foldl Z.max x l ∈ x :: l /\ Forall (fun y => y <= foldl Z.max x l) (x :: l).
Proof.
  revert x. induction l as [|y l IH]; intros x; cbn [foldl].
  - split; [constructor | repeat constructor; lia].
  - destruct (IH (Z.max x y)) as [Hin Hall].
    apply Forall_cons in Hall as [Hm Hall]. split.
    + apply elem_of_cons in Hin as [Hin|Hin].
      * rewrite Hin. destruct (Z.max_spec x y) as [[_ ->]|[_ ->]];
          [do 2 constructor | constructor].
      * now do 2 constructor.
    + repeat (apply Forall_cons; split); (lia || assumption).
Qed.

Lemma min_max_bounds l lo hi :
  min l = Ok lo -> max l = Ok hi ->
  lo ∈ l /\ hi ∈ l /\ Forall (fun y => lo <= y <= hi) l.
Proof.
  destruct l as [|x l]; [discriminate|]. cbn [min max].
  intros [= <-] [= <-].
  destruct (foldl_min_spec x l) as [H1 H2].
  destruct (foldl_max_spec x l) as [H3 H4].
  repeat split; try assumption.
  rewrite Forall_forall in *. intros y Hy.
  specialize (H2 y Hy). specialize (H4 y Hy). lia.
Qed.

Lemma sum_bounds l lo hi :
  Forall (fun y => lo <= y <= hi) l ->
  lo * len l <= Py.sum l <= hi * len l.
Proof.
  induction 1 as [|y l Hy _ IH]; [unfold len, Py.sum; cbn; lia|].
  rewrite sum_cons. unfold len in *. cbn [List.length]. nia.
Qed.

Lemma Q_between_div (a n : Z) (lo hi : Z) :
  0 < n -> lo * n <= a <= hi * n ->
  (inject_Z lo <= inject_Z a / inject_Z n <= inject_Z hi)%Q.
Proof.
  intros Hn [H1 H2].
  assert (Hq : (0 < inject_Z n)%Q) by (rewrite (Zlt_Qlt 0 n) in Hn; exact Hn).
  split.
  - apply Qle_shift_div_l; [exact Hq|].
    rewrite <- inject_Z_mult, <- Zle_Qle. exact H1.
  - apply Qle_shift_div_r; [exact Hq|].
    rewrite <- inject_Z_mult, <- Zle_Qle. exact H2.
Qed.

Lemma merge_sort_elem l i :
  (i < List.length l)%nat -> merge_sort Z.le l !!! i ∈ l.
Proof.
  intros Hi. rewrite <- (merge_sort_Permutation Z.le l) at 2.
  apply list_elem_of_lookup_total_2.
  now rewrite (Permutation_length (merge_sort_Permutation Z.le l)).
Qed.

Lemma merge_sort_perm l1 l2 :
  l1 ≡ₚ l2 -> merge_sort Z.le l1 = merge_sort Z.le l2.
Proof.
  intros Hp. apply (Sorted_unique Z.le).
  - apply Sorted_merge_sort, _.
  - apply Sorted_merge_sort, _.
  - now rewrite !merge_sort_Permutation.
Qed.

End Statistics.

(** [min] and [max] return elements of the list that bound every element,
    and the mean lies between them. *)
Theorem mean_between_min_and_max (l : list Z) (lo hi : Z) (avg : Q) :
  min l = Ok lo -> max l = Ok hi -> mean l = Ok avg ->
  lo ∈ l /\ hi ∈ l /\ Forall (fun y => lo <= y <= hi) l /\
  (inject_Z lo <= avg <= inject_Z hi)%Q.
Proof.
  intros Hlo Hhi Havg.
  destruct (min_max_bounds l lo hi Hlo Hhi) as (H1 & H2 & H3).
  repeat split; try assumption;
    unfold mean, truediv in Havg;
    destruct (Z.eqb_spec (len l) 0) as [|Hn]; try discriminate;
    injection Havg as <-;
    apply (Q_between_div (Py.sum l) (len l) lo hi);
    try (unfold len in *; lia); now apply sum_bounds.
Qed.

Lemma mean_between_min_and_max_witness :
  50 ∈ [50; 430; 1200] /\ 1200 ∈ [50; 430; 1200] /\
  Forall (fun y => 50 <= y <= 1200) [50; 430; 1200] /\
  (inject_Z 50 <= inject_Z 1680 / inject_Z 3 <= inject_Z 1200)%Q.
Proof.
  apply (mean_between_min_and_max [50; 430; 1200] 50 1200); reflexivity.
Defined.

(** The median of a non-empty list is defined and lies between its minimum
    and its maximum; an empty list has none. *)
Theorem median_between_min_and_max (l : list Z) (lo hi : Z) :
  min l = Ok lo -> max l = Ok hi ->
  exists m, median l = Some m /\ (inject_Z lo <= m <= inject_Z hi)%Q.
Proof.
  intros Hlo Hhi.
  destruct (min_max_bounds l lo hi Hlo Hhi) as (_ & _ & Hall).
  rewrite Forall_forall in Hall.
  assert (Hne : (0 < List.length l)%nat)
    by (destruct l; [discriminate | cbn; lia]).
  pose proof (Permutation_length (merge_sort_Permutation Z.le l)) as Hlen.
  unfold median. rewrite Hlen.
  destruct (Nat.eqb_spec (List.length l) 0) as [|_]; [lia|].
  assert (Hdiv : (List.length l / 2 < List.length l)%nat)
    by (apply Nat.div_lt; lia).
  pose proof (Hall _ (merge_sort_elem l (List.length l / 2) Hdiv)) as Hb.
  destruct (Nat.even (List.length l)).
  - assert (Hdiv' : (List.length l / 2 - 1 < List.length l)%nat) by lia.
    pose proof (Hall _ (merge_sort_elem l _ Hdiv')) as Ha.
    eexists. split; [reflexivity|].
    rewrite <- inject_Z_plus.
    apply (Q_between_div _ 2 lo hi); lia.
  - eexists. split; [reflexivity|].
    rewrite <- !Zle_Qle. exact Hb.
Qed.

Lemma median_between_min_and_max_witness :
  exists m, median [1200; 50; 430; 60] = Some m /\
            (inject_Z 50 <= m <= inject_Z 1200)%Q.
Proof.
  apply (median_between_min_and_max [1200; 50; 430; 60] 50 1200); reflexivity.
Defined.

(** The median does not depend on the order of the lengths. *)
Theorem median_permutation (l1 l2 : list Z) :
  l1 ≡ₚ l2 -> median l1 = median l2.
Proof.
  intros Hp. unfold median. now rewrite (merge_sort_perm l1 l2 Hp).
Qed.

Lemma median_permutation_witness :
  median ([50; 430] ++ [1200]) = median ([1200] ++ [50; 430]).
Proof. apply median_permutation, Permutation_app_comm. Defined.

(** * Further properties of the report *)

Section ReportMore.

Implicit Types (f : list chunk) (args : Args) (w : World) (ids : list string).

Lemma wbind_raise {A B} (m : Writer A) (k : A -> Writer B) f e f' :
  m f = (Raise e, f') -> wbind m k f = (Raise e, f').
Proof. intros H. unfold wbind. now rewrite H. Qed.

Lemma distribution_nonempty args lens :
  exists label count d, distribution args lens = (label, count) :: d.
Proof.
  pose proof (bucket_counts_length args lens) as H.
  unfold bucket_counts in H. rewrite length_fmap in H.
  destruct (distribution args lens) as [|[label count] d]; [discriminate|].
  now eexists _, _, _.
Qed.

(** With [total_count = 0] the body stops at the first line of the
    distribution block. *)
Lemma report_body_zero_total args ts pct lc ids lens lo hi avg :
  min lens = Ok lo -> max lens = Ok hi -> mean lens = Ok avg ->
  report_body args ts pct lc 0 ids lens []
  = (Raise ZeroDivisionError,
     report_head args ts pct lc 0 ++ report_stats lens lo hi avg).
Proof.
  intros Hlo Hhi Havg. unfold report_body, report_body_with.
  rewrite !wbind_write, Hlo, wbind_eval_ok, wbind_write.
  rewrite Hhi, wbind_eval_ok, wbind_write.
  rewrite Havg, wbind_eval_ok, !wbind_write.
  destruct (distribution_nonempty args lens) as (label & count & d & ->).
  cbn [for_each]. apply wbind_raise, wbind_raise. reflexivity.
Qed.

Lemma id_entries_app f1 f2 :
  id_entries (f1 ++ f2) = id_entries f1 ++ id_entries f2.
Proof. unfold id_entries. apply flat_map_app. Qed.

Lemma separators_app f1 f2 :
  separators (f1 ++ f2) = (separators f1 + separators f2)%nat.
Proof. unfold separators. now rewrite List.filter_app, length_app. Qed.

Lemma dist_counts_app f1 f2 :
  dist_counts (f1 ++ f2) = dist_counts f1 ++ dist_counts f2.
Proof. unfold dist_counts. apply flat_map_app. Qed.

Lemma dist_lines_projections tc d :
  id_entries (dist_lines tc d) = [] /\ separators (dist_lines tc d) = 0%nat /\
  dist_counts (dist_lines tc d) = d.*2.
Proof.
  induction d as [|[label count] d (IH1 & IH2 & IH3)]; [now repeat split|].
  repeat split; cbn; [exact IH1 | exact IH2 | f_equal; exact IH3].
Qed.

Lemma id_lines_cons i x ids :
  id_lines i (x :: ids)
  = IdLine (i + 1) x
    :: (if (i + 1) mod 50 =? 0 then [IdSeparator] else [])
    ++ id_lines (i + 1) ids.
Proof. reflexivity. Qed.

Lemma dist_counts_id_lines i ids : dist_counts (id_lines i ids) = [].
Proof.
  revert i. induction ids as [|x ids IH]; intros i; [reflexivity|].
  rewrite id_lines_cons. change (dist_counts (?c :: ?f)) with
    (dist_counts [c] ++ dist_counts f).
  rewrite dist_counts_app, IH.
  destruct ((i + 1) mod 50 =? 0); reflexivity.
Qed.

Lemma id_entries_id_lines i ids :
  id_entries (id_lines i ids)
  = zip ((fun k => i + Z.of_nat k) <$> List.seq 1 (List.length ids)) ids.
Proof.
  revert i. induction ids as [|x ids IH]; intros i; [reflexivity|].
  rewrite id_lines_cons.
  change (id_entries (IdLine (i + 1) x :: ?f)) with ((i + 1, x) :: id_entries f).
  rewrite id_entries_app, IH.
  cbn [List.length List.seq fmap list_fmap zip zip_with].
  replace (id_entries (if (i + 1) mod 50 =? 0 then [IdSeparator] else []))
    with (@nil (Z * string)) by (destruct ((i + 1) mod 50 =? 0); reflexivity).
  cbn [app]. f_equal.
  apply (f_equal (fun l => zip l ids)).
  rewrite <- (List.seq_shift (List.length ids) 1).
  change (List.map S ?l) with (S <$> l).
  rewrite <- list_fmap_compose.
  apply list_fmap_ext. intros _ k _. cbn. lia.
Qed.

Lemma div_50_succ (i : Z) :
  0 <= i -> (i + 1) / 50 = i / 50 + (if (i + 1) mod 50 =? 0 then 1 else 0).
Proof.
  intros Hi. destruct (Z.eqb_spec ((i + 1) mod 50) 0) as [H|H];
    Z.div_mod_to_equations; lia.
Qed.

Lemma separators_id_lines i ids :
  0 <= i ->
  Z.of_nat (separators (id_lines i ids)) = (i + len ids) / 50 - i / 50.
Proof.
  revert i. induction ids as [|x ids IH]; intros i Hi.
  - unfold len. cbn. rewrite Z.add_0_r. lia.
  - rewrite id_lines_cons.
    change (separators (IdLine (i + 1) x :: ?f)) with (separators f).
    rewrite separators_app, Nat2Z.inj_add, IH by lia.
    rewrite (div_50_succ i Hi). unfold len. cbn [List.length].
    replace (i + 1 + Z.of_nat (List.length ids))
      with (i + Z.of_nat (S (List.length ids))) by lia.
    destruct ((i + 1) mod 50 =? 0); cbn; lia.
Qed.

Lemma complete_report_projections args ts pct lc tc ids lens lo hi avg :
  let f := complete_report args ts pct lc tc ids lens lo hi avg in
  id_entries f = zip (Z.of_nat <$> List.seq 1 (List.length ids)) ids /\
  Z.of_nat (separators f) = len ids / 50 /\
  dist_counts f = bucket_counts args lens.
Proof.
  cbv zeta. unfold complete_report.
  destruct (dist_lines_projections tc (distribution args lens))
    as (D1 & D2 & D3).
  rewrite !id_entries_app, !separators_app, !dist_counts_app.
  rewrite D1, D2, D3, id_entries_id_lines, dist_counts_id_lines.
  rewrite !Nat2Z.inj_add, separators_id_lines by lia.
  split; [|split].
  - cbn [report_head id_entries flat_map app].
    apply (f_equal (fun l => zip l ids)).
    apply list_fmap_ext. intros _ k _. lia.
  - cbn [report_head separators List.filter List.length].
    replace (0 + len ids) with (len ids) by lia.
    change (0 `div` 50) with 0. lia.
  - cbn [report_head dist_counts flat_map app]. now rewrite app_nil_r.
Qed.

(** The four ways [generate_report] can end. *)
Lemma generate_report_cases w args lc tc ids lens :
  exists pct, headline_percentage lc tc = Ok pct /\
  match open_output w with
  | Some e => generate_report w args lc tc ids lens = (Raise e, None)
  | None =>
      match lens with
      | [] =>
          generate_report w args lc tc ids lens
          = (Raise (ValueError "min() arg is an empty sequence"),
             Some (report_head args (now w) pct lc tc))
      | _ :: _ =>
          exists lo hi avg,
            min lens = Ok lo /\ max lens = Ok hi /\ mean lens = Ok avg /\
            if tc =? 0
            then generate_report w args lc tc ids lens
                 = (Raise ZeroDivisionError,
                    Some (report_head args (now w) pct lc tc
                          ++ report_stats lens lo hi avg))
            else generate_report w args lc tc ids lens
                 = (Ok ("报告已保存至: " +:+ output args),
                    Some (complete_report args (now w) pct lc tc ids lens
                                          lo hi avg))
      end
  end.
Proof.
  destruct (headline_percentage_ok lc tc) as [pct Hpct].
  exists pct. split; [exact Hpct|].
  destruct (open_output w) as [e|] eqn:Hopen.
  - now apply generate_report_not_opened.
  - destruct lens as [|x lens].
    + unfold generate_report, generate_report_with. now rewrite Hpct, Hopen, report_body_empty.
    + destruct (min_max_mean_defined (x :: lens) ltac:(discriminate))
        as (lo & hi & avg & Hlo & Hhi & Havg).
      exists lo, hi, avg. repeat split; try assumption.
      unfold generate_report, generate_report_with. rewrite Hpct, Hopen.
      destruct (Z.eqb_spec tc 0) as [->|Htc].
      * now rewrite (report_body_zero_total _ _ _ _ _ _ lo hi avg).
      * now rewrite (report_body_complete _ _ _ _ _ _ _ lo hi avg).
Qed.

End ReportMore.

(** On counts and lengths of machine size, where no division leaves the
    range of a float, and on a disk that takes every write,
    [generate_report] returns normally exactly when the output can be
    opened, there is at least one length and [total_count] is not zero. *)
Theorem generate_report_succeeds_iff (w : World) (args : Args) (lc tc : Z)
    (ids : list string) (lens : list Z) :
  machine_int lc -> machine_int tc -> Forall machine_int lens ->
  (is_raise (generate_report w args lc tc ids lens).1 = false <->
   open_output w = None /\ lens <> [] /\ tc <> 0).
Proof.
  intros _ _ _.
  destruct (generate_report_cases w args lc tc ids lens) as (pct & _ & H).
  destruct (open_output w) as [e|].
  - rewrite H. cbn. split; [discriminate | now intros [? _]].
  - destruct lens as [|x lens].
    + rewrite H. cbn. split; [discriminate | now intros (_ & ? & _)].
    + destruct H as (lo & hi & avg & _ & _ & _ & H).
      destruct (Z.eqb_spec tc 0) as [Htc|Htc]; rewrite H; cbn.
      * split; [discriminate | now intros (_ & _ & ?)].
      * split; [now intros _ | reflexivity].
Qed.

Lemma generate_report_succeeds_iff_witness :
  is_raise (generate_report quiet_world sample_args 2 4 ["b"; "d"]
                            [4; 6; 0; 6]).1 = false <->
  open_output quiet_world = None /\ [4; 6; 0; 6] <> [] /\ 4 <> 0.
Proof.
  apply generate_report_succeeds_iff;
    [unfold machine_int; lia | unfold machine_int; lia
    | repeat constructor; unfold machine_int; lia].
Defined.

(** Called with [total_count = 0] on a non-empty list of lengths of
    machine size, on a disk that takes every write, [generate_report]
    writes the head and the statistics, then raises [ZeroDivisionError] at
    the first percentage of the distribution block: the report stops after
    the heading of that block. *)
Theorem zero_total_stops_in_distribution (w : World) (args : Args) (lc : Z)
    (ids : list string) (lens : list Z) (lo hi : Z) (avg : Q) :
  machine_int lc -> Forall machine_int lens ->
  open_output w = None ->
  min lens = Ok lo -> max lens = Ok hi -> mean lens = Ok avg ->
  generate_report w args lc 0 ids lens
  = (Raise ZeroDivisionError,
     Some (report_head args (now w) 0%Q lc 0 ++ report_stats lens lo hi avg)).
Proof.
  intros _ _ Hopen Hlo Hhi Havg. unfold generate_report, generate_report_with.
  change (headline_percentage lc 0) with (Ok 0%Q). rewrite Hopen.
  now rewrite (report_body_zero_total _ _ _ _ _ _ lo hi avg).
Qed.

Lemma zero_total_stops_in_distribution_witness :
  generate_report quiet_world sample_args 1 0 ["x"] [5; 7]
  = (Raise ZeroDivisionError,
     Some (report_head sample_args (now quiet_world) 0%Q 1 0
           ++ report_stats [5; 7] 5 7 (inject_Z 12 / inject_Z 2)%Q)).
Proof.
  apply zero_total_stops_in_distribution;
    [unfold machine_int; lia
    | repeat constructor; unfold machine_int; lia
    | reflexivity | reflexivity | reflexivity | reflexivity].
Defined.



(** In a report that was written to its end the identifiers are numbered
    1, 2, ... in the order given, the listing announces their number, and
    there is one separator for every full group of 50 identifiers. *)
Theorem id_listing_numbered (w : World) (args : Args) (lc tc : Z)
    (ids : list string) (lens : list Z) (msg : string) (f : list chunk) :
  generate_report w args lc tc ids lens = (Ok msg, Some f) ->
  id_entries f = zip (Z.of_nat <$> List.seq 1 (List.length ids)) ids /\
  Z.of_nat (separators f) = len ids / 50 /\
  IdsFound (len ids) ∈ f.
Proof.
  intros Hrep.
  destruct (generate_report_cases w args lc tc ids lens) as (pct & Hpct & H).
  destruct (open_output w) as [e|]; [congruence|].
  destruct lens as [|x lens]; [congruence|].
  destruct H as (lo & hi & avg & _ & _ & _ & H).
  destruct (tc =? 0); [congruence|].
  rewrite H in Hrep. apply pair_equal_spec in Hrep as [_ Hf].
  apply (inj Some) in Hf as <-.
  destruct (complete_report_projections args (now w) pct lc tc ids (x :: lens)
              lo hi avg) as (H1 & H2 & _).
  split; [exact H1|]. split; [exact H2|].
  unfold complete_report. rewrite !elem_of_app.
  right. right. right. left. do 2 right. constructor.
Qed.

Lemma id_listing_numbered_witness :
  exists f,
    generate_report quiet_world sample_args 2 4 ["b"; "d"] [4; 6; 0; 6]
    = (Ok ("报告已保存至: " +:+ output sample_args), Some f) /\
    id_entries f = [(1, "b"); (2, "d")] /\
    Z.of_nat (separators f) = 0.
Proof.
  eexists. split; [reflexivity|].
  destruct (id_listing_numbered quiet_world sample_args 2 4 ["b"; "d"]
              [4; 6; 0; 6] _ _ eq_refl) as (H1 & H2 & _).
  split; [exact H1 | exact H2].
Defined.

(** For counts with [0 <= long_count <= total_count], as the analyzer
    returns them, the headline percentage is defined and lies between 0
    and 100. *)
Theorem headline_percentage_range (lc tc : Z) :
  0 <= lc <= tc ->
  exists p, headline_percentage lc tc = Ok p /\ (0 <= p <= 100)%Q.
Proof.
  intros Hb. unfold headline_percentage.
  destruct (Z.gtb_spec tc 0) as [Htc|Htc].
  - rewrite truediv_ok by lia. eexists. split; [reflexivity|].
    assert (Hq : (0 < inject_Z tc)%Q) by (rewrite (Zlt_Qlt 0 tc) in Htc; exact Htc).
    split.
    + apply Qmult_le_0_compat; [|discriminate].
      apply Qle_shift_div_l; [exact Hq|].
      rewrite Qmult_0_l. rewrite (Zle_Qle 0 lc) in Hb. apply Hb.
    + apply (Qle_trans _ (1 * 100)%Q); [|discriminate].
      apply Qmult_le_compat_r; [|discriminate].
      apply Qle_shift_div_r; [exact Hq|].
      rewrite Qmult_1_l, <- Zle_Qle. lia.
  - eexists. split; [reflexivity|]. split; discriminate.
Qed.

Lemma headline_percentage_range_witness :
  exists p, headline_percentage 2 4 = Ok p /\ (0 <= p <= 100)%Q.
Proof. apply headline_percentage_range. lia. Defined.

(** * Further properties of [main] and of the font selection *)

Section MainMore.

Implicit Types (w : World) (args : Args) (fasta : parse_stream).

(** What a finished run has gone through. *)
Lemma main_finished_inv w args fasta out :
  main w args fasta = (Finished, out) ->
  input_is_file w = true /\ chart_draw w = None /\ chart_save w = None /\
  open_output w = None /\
  exists lc tc ids lens pct lo hi avg,
    lens <> [] /\
    count_long_sequences fasta (min_length args) = Ok (lc, tc, ids, lens) /\
    out = Some (complete_report args (now w) pct lc tc ids lens lo hi avg).
Proof.
  intros Hm.
  destruct (main_outcome w args fasta)
    as [(e & Hm' & He & _)|(H1 & H2 & H3 & H4 & H5 & H6 & lc & tc & ids & lens
                            & pct & lo & hi & avg & Hc & Hm')].
  { rewrite Hm in Hm'. congruence. }
  repeat (split; [assumption|]).
  exists lc, tc, ids, lens, pct, lo, hi, avg.
  split.
  { apply count_long_sequences_ok in Hc as (_ & _ & _ & _ & ->).
    intros Hnil. apply fmap_nil_inv in Hnil. contradiction. }
  split; [exact Hc|]. cbv zeta in Hm'. rewrite Hm in Hm'.
  destruct (disk w) as [[k e]|].
  - destruct (k <? _)%nat; [discriminate|].
    destruct (terminal w); [discriminate | congruence].
  - destruct (terminal w); [discriminate | congruence].
Qed.

Lemma id_lines_length i (ids : list string) :
  0 <= i ->
  Z.of_nat (List.length (id_lines i ids))
  = len ids + ((i + len ids) / 50 - i / 50).
Proof.
  revert i. induction ids as [|x ids IH]; intros i Hi.
  - unfold len. cbn. rewrite Z.add_0_r. lia.
  - rewrite id_lines_cons. cbn [List.length]. rewrite length_app.
    rewrite Nat2Z.inj_succ, Nat2Z.inj_add, IH by lia.
    rewrite (div_50_succ i Hi). unfold len. cbn [List.length].
    replace (i + 1 + Z.of_nat (List.length ids))
      with (i + Z.of_nat (S (List.length ids))) by lia.
    destruct ((i + 1) mod 50 =? 0); cbn [List.length]; lia.
Qed.

(** A whole report that lists [n] identifiers takes [28 + n + n / 50]
    writes. *)
Lemma complete_report_length args ts pct lc tc (ids : list string) lens
    lo hi avg :
  List.length (complete_report args ts pct lc tc ids lens lo hi avg)
  = report_writes (List.length ids).
Proof.
  unfold complete_report, report_writes. rewrite !length_app.
  unfold dist_lines. rewrite length_map.
  pose proof (bucket_counts_length args lens) as Hd.
  unfold bucket_counts in Hd. rewrite length_fmap in Hd. rewrite Hd.
  pose proof (id_lines_length 0 ids ltac:(lia)) as Hi.
  cbn [report_head List.length].
  apply Nat2Z.inj. rewrite !Nat2Z.inj_add, Hi, Nat2Z.inj_div.
  unfold len. replace (0 + Z.of_nat (List.length ids))
    with (Z.of_nat (List.length ids)) by lia.
  change (0 `div` 50) with 0. cbn. lia.
Qed.

End MainMore.

(** A run of [main] finishes exactly when the input file exists, the
    parser ends normally after at least one record, both parts of the
    chart step succeed, the report can be opened, the disk takes all the
    [28 + n + n / 50] writes of a report that lists the [n] long records,
    and the terminal accepts the summary. *)
Theorem main_finishes_iff (w : World) (args : Args) (fasta : parse_stream) :
  let n := List.length (filter (fun r => min_length args < seq_length r)
                               (yielded fasta)) in
  (main w args fasta).1 = Finished <->
  input_is_file w = true /\ ending fasta = None /\ yielded fasta <> [] /\
  chart_draw w = None /\ chart_save w = None /\ open_output w = None /\
  (forall k e, disk w = Some (k, e) -> (report_writes n <= k)%nat) /\
  terminal w = None.
Proof.
  intros n.
  destruct (main_outcome w args fasta)
    as [(e & Hm & He & Hwhy)|(H1 & H2 & H3 & H4 & H5 & H6 & lc & tc & ids
                              & lens & pct & lo & hi & avg & Hc & Hm)].
  - rewrite Hm. cbn [fst]. split; [congruence|].
    intros (G1 & G2 & G3 & G4 & G5 & G6 & _).
    destruct Hwhy as [?|[?|[?|[?|[?|?]]]]]; congruence.
  - cbv zeta in Hm. rewrite Hm.
    assert (Hn : List.length (complete_report args (now w) pct lc tc ids lens
                                lo hi avg) = report_writes n).
    { rewrite complete_report_length. f_equal.
      apply count_long_sequences_ok in Hc as (_ & _ & _ & -> & _).
      now rewrite length_fmap. }
    rewrite Hn.
    destruct (disk w) as [[k e]|].
    + destruct (Nat.ltb_spec k (report_writes n)) as [Hlt|Hge]; cbn [fst].
      * split; [discriminate|].
        intros (_ & _ & _ & _ & _ & _ & Hk & _).
        specialize (Hk k e eq_refl). lia.
      * destruct (terminal w); cbn [fst].
        { split; [discriminate | intros (_ & _ & _ & _ & _ & _ & _ & ?); discriminate]. }
        split; [|reflexivity]. intros _. repeat (split; [assumption|]).
        split; [|reflexivity]. intros k' e' [= <- <-]. exact Hge.
    + destruct (terminal w); cbn [fst].
      { split; [discriminate | intros (_ & _ & _ & _ & _ & _ & _ & ?); discriminate]. }
      split; [|reflexivity]. intros _. repeat (split; [assumption|]).
      split; [|reflexivity]. intros k' e' [=].
Qed.

(** On an input without any record a run never finishes and never writes
    the report; when the parser ends normally and the drawing calls return,
    it dies of the [ValueError] of [min] on the empty list in the chart
    step. *)
Theorem main_empty_corpus (w : World) (args : Args) (fasta : parse_stream) :
  yielded fasta = [] ->
  (exists e, main w args fasta = (e, None) /\ e <> Finished) /\
  (input_is_file w = true -> ending fasta = None -> chart_draw w = None ->
   main w args fasta
   = (Uncaught (ValueError "min() arg is an empty sequence"), None)).
Proof.
  intros Hrs. unfold main, count_long_sequences. rewrite Hrs. cbn [foldl].
  split.
  - destruct (input_is_file w); cbn [negb];
      [|eexists; split; [reflexivity | discriminate]].
    destruct (ending fasta);
      [eexists; split; [reflexivity | discriminate]|].
    cbn [long_count total_count long_ids all_lengths counters0].
    unfold plot_length_distribution.
    destruct (chart_draw w); eexists; (split; [reflexivity | discriminate]).
  - intros -> -> Hdraw. cbn [negb]. unfold plot_length_distribution.
    now rewrite Hdraw.
Qed.

Lemma main_empty_corpus_witness :
  (exists e, main quiet_world sample_args empty_fasta = (e, None) /\ e <> Finished) /\
  main quiet_world sample_args empty_fasta
  = (Uncaught (ValueError "min() arg is an empty sequence"), None).
Proof.
  destruct (main_empty_corpus quiet_world sample_args empty_fasta eq_refl)
    as [H1 H2].
  split; [exact H1 | apply H2; reflexivity].
Defined.

(** The report of a finished run agrees with the input: it shows the
    threshold of the run, the number of records, the number of long
    records both in the headline and in the heading of the listing, and
    bucket counts that add up to the number of records. *)
Theorem main_report_consistent (w : World) (args : Args)
    (fasta : parse_stream) (f : list chunk) :
  main w args fasta = (Finished, Some f) ->
  let k := len (filter (fun r => min_length args < seq_length r)
                       (yielded fasta)) in
  Threshold (min_length args) ∈ f /\
  Total (len (yielded fasta)) ∈ f /\
  Long k ∈ f /\ IdsFound k ∈ f /\
  Py.sum (dist_counts f) = len (yielded fasta).
Proof.
  intros Hm k.
  apply main_finished_inv in Hm
    as (_ & _ & _ & _ & lc & tc & ids & lens & pct & lo & hi & avg
        & _ & Hc & Hf).
  apply (inj Some) in Hf as ->.
  destruct (analyzer_lengths _ _ _ _ _ _ Hc) as [Hlen Hpos].
  destruct (complete_report_projections args (now w) pct lc tc ids lens
              lo hi avg) as (_ & _ & Hd).
  rewrite Hd, bucket_counts_sum by exact Hpos.
  apply count_long_sequences_ok in Hc as (_ & Hlc & Htc & Hids & _).
  assert (Hk : len ids = k).
  { rewrite Hids. unfold len. now rewrite length_fmap. }
  assert (Hlck : lc = k) by exact Hlc.
  rewrite <- Hlen, <- Htc, <- Hlck.
  unfold complete_report, report_head. rewrite !elem_of_app, !elem_of_cons.
  repeat split; auto 20.
  right. right. right. left. rewrite Hk, Hlck. auto.
Qed.

Lemma main_report_consistent_witness :
  exists f,
    main quiet_world (mkArgs "in.fasta" "report.txt" 4 "plot.png") sample_fasta
    = (Finished, Some f) /\
    Total 4 ∈ f /\ Long 2 ∈ f /\ IdsFound 2 ∈ f /\ Py.sum (dist_counts f) = 4.
Proof.
  eexists. split; [reflexivity|].
  destruct (main_report_consistent quiet_world
              (mkArgs "in.fasta" "report.txt" 4 "plot.png") sample_fasta _
              eq_refl) as (_ & H1 & H2 & H3 & H4).
  repeat split; assumption.
Defined.

(** An exception of the parser ends the run with that exception, whatever
    was parsed before it: no chart is drawn and no report is written. *)
Theorem main_parser_error (w : World) (args : Args) (fasta : parse_stream)
    (e : exn) :
  input_is_file w = true -> ending fasta = Some e ->
  count_long_sequences fasta (min_length args) = Raise e /\
  main w args fasta = (Uncaught e, None).
Proof.
  intros Hfile Hend. unfold main, count_long_sequences.
  rewrite Hfile, Hend. split; reflexivity.
Qed.

Lemma main_parser_error_witness :
  count_long_sequences failing_fasta (min_length sample_args)
  = Raise (ParserError "bad record") /\
  main quiet_world sample_args failing_fasta
  = (Uncaught (ParserError "bad record"), None).
Proof. apply main_parser_error; reflexivity. Defined.

Section Font.

Implicit Types (isfile : string -> bool) (platform : string)
  (rc : list string) (font_path : option string).

Lemma system_font_candidate_other platform :
  platform <> "Windows" -> platform <> "Linux" -> platform <> "Darwin" ->
  system_font_candidate platform = "".
Proof.
  intros H1 H2 H3. unfold system_font_candidate, system_fonts.
  rewrite !lookup_insert_ne by congruence. now rewrite lookup_empty.
Qed.

End Font.

(** [set_chinese_font] never returns a font file that does not exist, and
    it leaves the font setting alone whenever it returns a font file; the
    default font comes with the setting changed to DejaVu Sans. *)
Theorem font_file_exists (isfile : string -> bool) (platform : string)
    (rc : list string) (font_path : option string) :
  match set_chinese_font isfile platform rc font_path with
  | (FontFile p, rc') => isfile p = true /\ rc' = rc
  | (FontDefault, rc') => rc' = ["DejaVu Sans"]
  end.
Proof.
  unfold set_chinese_font.
  destruct font_path as [p|].
  - destruct (negb (String.eqb p "") && isfile p) eqn:Hp.
    + apply andb_true_iff in Hp as [_ Hp]. now split.
    + destruct (isfile (system_font_candidate platform)) eqn:Hc; [now split|].
      reflexivity.
  - destruct (isfile (system_font_candidate platform)) eqn:Hc; [now split|].
    reflexivity.
Qed.

(** A non-empty font path that names an existing file wins over the
    platform: it is the font returned, on every platform. *)
Theorem user_font_has_priority (isfile : string -> bool) (platform : string)
    (rc : list string) (p : string) :
  p <> "" -> isfile p = true ->
  set_chinese_font isfile platform rc (Some p) = (FontFile p, rc).
Proof.
  intros Hne Hp. unfold set_chinese_font.
  apply String.eqb_neq in Hne. now rewrite Hne, Hp.
Qed.

Lemma user_font_has_priority_witness :
  set_chinese_font simhei_present "linux" ["SimHei"] (Some "./font/SimHei.ttf")
  = (FontFile "./font/SimHei.ttf", ["SimHei"]).
Proof. apply user_font_has_priority; [discriminate | reflexivity]. Defined.

(** The table of system fonts is keyed by ["Windows"], ["Linux"] and
    ["Darwin"]: for any other platform name, such as ["linux"], the
    candidate is the empty path, and without a usable font path the
    function falls back to the default font and DejaVu Sans. *)
Theorem other_platform_falls_back (isfile : string -> bool)
    (platform : string) (rc : list string) (font_path : option string) :
  platform <> "Windows" -> platform <> "Linux" -> platform <> "Darwin" ->
  isfile "" = false ->
  (forall p, font_path = Some p -> isfile p = false) ->
  system_font_candidate platform = "" /\
  set_chinese_font isfile platform rc font_path = (FontDefault, ["DejaVu Sans"]).
Proof.
  intros H1 H2 H3 Hempty Huser.
  pose proof (system_font_candidate_other platform H1 H2 H3) as Hc.
  split; [exact Hc|]. unfold set_chinese_font. rewrite Hc, Hempty.
  destruct font_path as [p|]; [|reflexivity].
  rewrite (Huser p eq_refl), andb_false_r. reflexivity.
Qed.

Lemma other_platform_falls_back_witness :
  system_font_candidate "linux" = "" /\
  set_chinese_font no_file "linux" ["SimHei"] (Some "./font/SimHei.ttf")
  = (FontDefault, ["DejaVu Sans"]).
Proof.
  apply other_platform_falls_back;
    [discriminate | discriminate | discriminate | reflexivity | reflexivity].
Defined.
